(** * Clippo: the realtime session facade and its cursor choreographer

    A shallow embedding of [ClippoService] (the service that owns the
    websocket client, the audio streamer and the cursor choreography) and of
    the earlier [ScreenCaptureService] variants that share its methods,
    followed by the parts of the application component, of the control
    tray and of the stand-alone screen capture service that use it.

    Conventions of the embedding:
    - a JavaScript [number] is an exact rational ([Q]) in the service; the
      accumulation of the delays is given a second time over IEEE doubles
      (module [Binary64]), where rounding decides;
    - a value of type [any] coming out of [JSON.parse] is a [JsVal];
    - an [async] function returns a [Promise]: fulfilled, rejected, or
      never settled;
    - calls to collaborators that live outside the service (frame capture,
      the generative model, the display-media picker) are answered by the
      fields of a [Browser] record and recorded in an effect log;
    - [console.log] / [console.error] calls are not modelled. *)

From Stdlib Require Import List String Ascii Bool Arith ZArith Lia QArith.
From Stdlib Require Import Qround Lqa Floats Sorting.Sorted.
Import ListNotations.

Local Close Scope Q_scope.
Local Open Scope string_scope.
Local Open Scope list_scope.

Set Implicit Arguments.
Set Warnings "-register-all".
Set Warnings "-inexact-float".

(** ** JavaScript values *)

Module Js.

(** What [JSON.parse] can return, plus [undefined], which appears as soon
    as a missing property or array slot is read. *)
Inductive JsVal : Type :=
| JUndefined
| JNull
| JBool (b : bool)
| JNum (q : Q)
| JStr (s : string)
| JArr (elems : list JsVal)
| JObj (fields : list (string * JsVal)).

Inductive Error : Type :=
| NotConnected        (* Error('Not connected to Gemini. Please connect first.') *)
| TypeError           (* property read on null/undefined, non-iterable destructuring *)
| SyntaxError         (* JSON.parse on text that is not JSON *)
| NoVideoTrack        (* Error("No video track found in stream") *)
| NoCanvasContext     (* Error("Could not get canvas context") *)
| ConnectionError     (* the transport failed before it confirmed open *)
| ModelError.         (* the generative model call rejected *)

(** Outcome of awaiting a promise. [Pending] is a promise that never
    settles: the code after the [await] never runs. *)
Inductive Promise (A : Type) : Type :=
| Fulfilled (a : A)
| Rejected (e : Error)
| Pending.

Arguments Rejected {A} e.
Arguments Pending {A}.

(** [if (v)] *)
Definition truthy (v : JsVal) : bool :=
  match v with
  | JUndefined | JNull => false
  | JBool b => b
  | JNum q => negb (Qeq_bool q 0%Q)
  | JStr s => negb (String.eqb s "")
  | JArr _ | JObj _ => true
  end.

(** [Array.isArray(v)] *)
Definition isArray (v : JsVal) : bool :=
  match v with JArr _ => true | _ => false end.

(** [arr[i]] on an array: [undefined] out of range. *)
Definition index (elems : list JsVal) (i : nat) : JsVal :=
  nth i elems JUndefined.

Fixpoint field (name : string) (fields : list (string * JsVal)) : JsVal :=
  match fields with
  | [] => JUndefined
  | (k, v) :: rest => if String.eqb k name then v else field name rest
  end.

(** [v.name]: throws on [null] and [undefined], is [undefined] on the
    other primitives and on arrays (for the names used here). *)
Definition getProp (name : string) (v : JsVal) : option JsVal :=
  match v with
  | JUndefined | JNull => None
  | JObj fields => Some (field name fields)
  | _ => Some JUndefined
  end.

Definition charAt (s : string) (i : nat) : JsVal :=
  match String.get i s with
  | Some c => JStr (String c EmptyString)
  | None => JUndefined
  end.

(** [const [a, b] = v]: the first two items of the iterable [v]; only
    arrays and strings are iterable. *)
Definition destructure2 (v : JsVal) : option (JsVal * JsVal) :=
  match v with
  | JArr elems => Some (index elems 0, index elems 1)
  | JStr s => Some (charAt s 0, charAt s 1)
  | _ => None
  end.

(** [s.includes(needle)] *)
Definition includes (needle s : string) : bool :=
  match String.index 0 needle s with Some _ => true | None => false end.

(** [s.slice(s.indexOf(needle) + 1)]; [indexOf] is -1 when the needle is
    absent, so the slice then starts at 0. *)
Definition sliceAfter (needle s : string) : string :=
  match String.index 0 needle s with
  | Some i => String.substring (S i) (String.length s - S i) s
  | None => s
  end.

(** [Promise.all]: rejected as soon as one member rejects, otherwise
    pending while a member is pending, otherwise the list of values in
    index order. When several members reject, the one that rejects first
    in time wins; the model reports the leftmost one. *)
Fixpoint firstRejection {A} (ps : list (Promise A)) : option Error :=
  match ps with
  | [] => None
  | Rejected e :: _ => Some e
  | _ :: rest => firstRejection rest
  end.

Fixpoint allValues {A} (ps : list (Promise A)) : option (list A) :=
  match ps with
  | [] => Some []
  | Fulfilled a :: rest =>
      match allValues rest with
      | Some vs => Some (a :: vs)
      | None => None
      end
  | _ :: _ => None
  end.

Definition Promise_all {A} (ps : list (Promise A)) : Promise (list A) :=
  match firstRejection ps with
  | Some e => Rejected e
  | None =>
      match allValues ps with
      | Some vs => Fulfilled vs
      | None => Pending
      end
  end.

End Js.
Import Js.

(** ** Data of the cursor tool *)

(** One entry of the [points] argument of [move_cursor_sequence]:
    [{ description: string; delay: number }], [delay] in seconds. *)
Record CursorPoint : Type := mkPoint {
  description : string;
  delay : Q
}.

(** [functionCalls[i]]: a name and its decoded arguments. Only the [points]
    argument is ever read. *)
Record FunctionCall : Type := mkCall {
  name : string;
  points : list CursorPoint
}.

Record ToolCall : Type := mkToolCall {
  functionCalls : list FunctionCall
}.

(** A [MediaStream], as far as the service looks at it: its video tracks
    ([getVideoTracks()]) and its other tracks. *)
Record MediaStream : Type := mkStream {
  streamId : nat;
  videoTracks : list nat;
  audioTracks : list nat
}.

(** [stream.getTracks()] *)
Definition getTracks (stream : MediaStream) : list nat :=
  videoTracks stream ++ audioTracks stream.

(** The value pushed through [cursorPosition$]. *)
Record CursorEvent : Type := mkCursor {
  x : JsVal;
  y : JsVal
}.

(** A callback registered with [setTimeout(() => raiseMoveCursorEvent(x, y),
    cumulativeDelay)]: the requested delay in milliseconds and the event the
    callback raises. *)
Record Timer : Type := mkTimer {
  timeout : Q;
  event : CursorEvent
}.

(** ** The browser and the generative model *)

(** Everything the service asks of its environment. [generateContent k]
    answers the [k]-th lookup issued by one [getPointsFromImage] call: the
    text of the model's response, a rejection, or nothing at all. *)
Record Browser : Type := mkBrowser {
  loadedmetadata : MediaStream -> bool;
  context2d : bool;
  toDataURL : MediaStream -> string;
  generateContent : nat -> string -> string -> Promise string;
  JSON_parse : string -> option JsVal;
  getDisplayMedia : Promise (option MediaStream)
}.

(** Calls that leave the service. *)
Inductive Effect : Type :=
| DrawImage (stream : MediaStream)
| GenerateContent (imageData prompt : string)
| GetDisplayMedia
| TrackStop (track : nat).

(** An asynchronous computation: how its promise settles and the calls it
    made on the way. *)
Definition Async (A : Type) : Type := (Promise A * list Effect)%type.

Definition ret {A} (a : A) : Async A := (Fulfilled a, []).

Definition bind {A B} (m : Async A) (k : A -> Async B) : Async B :=
  match m with
  | (Fulfilled a, log) => let (r, log') := k a in (r, log ++ log')
  | (Rejected e, log) => (Rejected e, log)
  | (Pending, log) => (Pending, log)
  end.

Notation "'await' x <- m ; k" := (bind m (fun x => k))
  (at level 10, x name, m at level 100, k at level 200).

(** ** Vision lookup: [getPointsFromImage] *)

Definition dq : string := String (ascii_of_nat 34) EmptyString.

(** The template literal sent with the image. *)
Definition prompt (description : string) : string :=
  "Find the location of: " ++ dq ++ description ++ dq
  ++ ". The answer should follow the json format: {" ++ dq ++ "point" ++ dq
  ++ ": <point>, " ++ dq ++ "label" ++ dq
  ++ ": <label1>}. The point should be in [y, x] format normalized to 0-1000. Return only one point that best matches the description. Do not wrap the JSON in markdown quotes. Just return the JSON string.".

(** Remove the data URL prefix if it exists. *)
Definition imageData (base64Image : string) : string :=
  if includes "data:image" base64Image
  then sliceAfter "," base64Image
  else base64Image.

(** The body of the [async] callback mapped over the points: ask the model,
    then [JSON.parse] its text. A text that does not parse makes the
    callback's promise reject. *)
Definition lookup (b : Browser) (base64Image : string) (k : nat)
  (p : CursorPoint) : Promise JsVal :=
  match generateContent b k (imageData base64Image) (prompt (description p)) with
  | Fulfilled text =>
      match JSON_parse b text with
      | Some v => Fulfilled v
      | None => Rejected SyntaxError
      end
  | Rejected e => Rejected e
  | Pending => Pending
  end.

(** [points.map(async ...)] with the index of each callback. *)
Fixpoint lookups (b : Browser) (base64Image : string) (k : nat)
  (ps : list CursorPoint) : list (Promise JsVal) :=
  match ps with
  | [] => []
  | p :: rest => lookup b base64Image k p :: lookups b base64Image (S k) rest
  end.

(** Every callback runs up to its [await] before [Promise.all] is even
    called, so every request is issued whatever the others answer. *)
Definition lookupRequests (base64Image : string) (ps : list CursorPoint)
  : list Effect :=
  map (fun p => GenerateContent (imageData base64Image) (prompt (description p))) ps.

Definition getPointsFromImage (b : Browser) (base64Image : string)
  (ps : list CursorPoint) : Async (list JsVal) :=
  (Promise_all (lookups b base64Image 0 ps), lookupRequests base64Image ps).

(** ** Frame capture: [captureLastFrame] *)

Definition captureLastFrame (b : Browser) (stream : MediaStream) : Async string :=
  match videoTracks stream with
  | [] => (Rejected NoVideoTrack, [])
  | _ :: _ =>
      if loadedmetadata b stream then
        if context2d b
        then (Fulfilled (toDataURL b stream), [DrawImage stream])
        else (Rejected NoCanvasContext, [])
      else (Pending, [])
  end.

(** ** The scheduling loop of [handleMoveCursorInSequence] *)

(** [Array.isArray(loc) ? loc[0] : loc.point]; [None] when the property read
    throws. *)
Definition pointOf (loc : JsVal) : option JsVal :=
  match loc with
  | JArr elems => Some (index elems 0)
  | _ => getProp "point" loc
  end.

(** What the loop has done when it stops: the timers it registered, in
    registration order, and the error that cut it short, if any. *)
Definition LoopResult : Type := (list Timer * option Error)%type.

Definition consTimer (t : Timer) (r : LoopResult) : LoopResult :=
  (t :: fst r, snd r).

(** The [for] loop from index [i] on; [locs] is [locations] from [i],
    [cumulativeDelay] the value of the variable on entry. *)
Fixpoint moveCursorLoop (pts : list CursorPoint) (i : nat) (locs : list JsVal)
  (cumulativeDelay : Q) : LoopResult :=
  match locs with
  | [] => ([], None)
  | loc :: rest =>
      match pointOf loc with
      | None => ([], Some TypeError)
      | Some point =>
          match nth_error pts i with
          | None => ([], Some TypeError)
          | Some p =>
              let cumulativeDelay := (cumulativeDelay + delay p * 1000)%Q in
              if truthy point then
                match destructure2 point with
                | None => ([], Some TypeError)
                | Some (y, x) =>
                    consTimer (mkTimer cumulativeDelay (mkCursor x y))
                      (moveCursorLoop pts (S i) rest cumulativeDelay)
                end
              else moveCursorLoop pts (S i) rest cumulativeDelay
          end
      end
  end.

(** ** The accumulation of the delays *)

Section Accumulation.

Variable N : Type.
Variables add mul : N -> N -> N.
Variable thousand : N.

(** The variable [cumulativeDelay] of the loop, whatever the arithmetic:
    its value after each round, for the declared delays in point order,
    from the value [cumulativeDelay] on entry
    ([cumulativeDelay += points[i].delay * 1000]). The timer of a located
    point is registered with the value of its round. *)
Fixpoint cumulativeDelays (delays : list N) (cumulativeDelay : N) : list N :=
  match delays with
  | [] => []
  | delay :: rest =>
      let cumulativeDelay := add cumulativeDelay (mul delay thousand) in
      cumulativeDelay :: cumulativeDelays rest cumulativeDelay
  end.

End Accumulation.

(** ** The delays over IEEE doubles *)

Module Binary64.

(** The accumulation with the numbers JavaScript computes with. *)
Definition cumulativeDelays : list float -> float -> list float :=
  cumulativeDelays PrimFloat.add PrimFloat.mul 1000%float.

(** The rational number a finite double stands for. *)
Definition exact (f : float) : option Q :=
  match Prim2SF f with
  | S754_zero _ => Some 0%Q
  | S754_finite sign m e =>
      let z := if sign then Z.neg m else Z.pos m in
      Some (if (0 <=? e)%Z
            then inject_Z (z * 2 ^ e)
            else Qmake z (Pos.pow 2 (Z.to_pos (- e))))
  | S754_infinity _ => None
  | S754_nan => None
  end.

End Binary64.

(** ** Collaborators of the service *)

(** What arrives in a server message's content. *)
Inductive ServerContent : Type :=
| ModelTurn (parts : list string)
| TurnComplete
| Interrupted.

(** A [Part] handed to the websocket client. *)
Inductive Part : Type :=
| TextPart (text : string).

(** A [GenerativeContentBlob]: [{ mimeType, data }]. *)
Record GenerativeContentBlob : Type := mkBlob {
  mimeType : string;
  data : string
}.

(** The [LiveConfig] sent at setup. *)
Record LiveConfig : Type := mkConfig {
  model : string;
  responseModalities : string;
  voiceName : string;
  systemInstruction : string;
  tools : list string
}.

(** The interface of [MultimodalLiveClient] (module [ws-client]) that the
    service uses. [ws_send] and [ws_sendRealtimeInput] are synchronous:
    [Some e] is a thrown error. *)
Class WsClient (C : Type) : Type := {
  ws_connect : LiveConfig -> C -> Promise unit * C;
  ws_disconnect : C -> C;
  ws_send : Part -> C -> option Error * C;
  ws_sendRealtimeInput : list GenerativeContentBlob -> C -> option Error * C
}.

(** The interface of [AudioStreamer] (module [audio-streamer]). *)
Class AudioOut (A : Type) : Type := {
  audio_stop : A -> A;
  audio_addPCM16 : list nat -> A -> A
}.

(** ** The service *)

Section Service.

Context {C A : Type} `{WsClient C} `{AudioOut A}.

(** The fields of [ClippoService], with the subjects reduced to their
    current value, plus the callbacks the service has registered with
    [setTimeout] and that have not run yet. *)
Record ClippoService : Type := mkService {
  streamSubject : option MediaStream;
  screenStream : option MediaStream;
  isStreamingSubject : bool;
  connectedSubject : bool;
  isConnected : bool;
  streamedMessage : string;
  contentSubject : option ServerContent;
  toolSubject : option ToolCall;
  wsClient : C;
  audioStreamer : option A;
  cursorPositionSubject : option CursorEvent;
  pendingTimers : list Timer
}.

Definition set_wsClient (c : C) (s : ClippoService) : ClippoService :=
  mkService (streamSubject s) (screenStream s) (isStreamingSubject s)
    (connectedSubject s) (isConnected s) (streamedMessage s) (contentSubject s)
    (toolSubject s) c (audioStreamer s) (cursorPositionSubject s)
    (pendingTimers s).

Definition set_audioStreamer (a : option A) (s : ClippoService) : ClippoService :=
  mkService (streamSubject s) (screenStream s) (isStreamingSubject s)
    (connectedSubject s) (isConnected s) (streamedMessage s) (contentSubject s)
    (toolSubject s) (wsClient s) a (cursorPositionSubject s) (pendingTimers s).

Definition set_streamedMessage (m : string) (s : ClippoService) : ClippoService :=
  mkService (streamSubject s) (screenStream s) (isStreamingSubject s)
    (connectedSubject s) (isConnected s) m (contentSubject s)
    (toolSubject s) (wsClient s) (audioStreamer s) (cursorPositionSubject s)
    (pendingTimers s).

Definition set_contentSubject (d : option ServerContent) (s : ClippoService)
  : ClippoService :=
  mkService (streamSubject s) (screenStream s) (isStreamingSubject s)
    (connectedSubject s) (isConnected s) (streamedMessage s) d
    (toolSubject s) (wsClient s) (audioStreamer s) (cursorPositionSubject s)
    (pendingTimers s).

Definition set_toolSubject (d : option ToolCall) (s : ClippoService)
  : ClippoService :=
  mkService (streamSubject s) (screenStream s) (isStreamingSubject s)
    (connectedSubject s) (isConnected s) (streamedMessage s) (contentSubject s)
    d (wsClient s) (audioStreamer s) (cursorPositionSubject s)
    (pendingTimers s).

Definition set_cursorPositionSubject (e : option CursorEvent) (s : ClippoService)
  : ClippoService :=
  mkService (streamSubject s) (screenStream s) (isStreamingSubject s)
    (connectedSubject s) (isConnected s) (streamedMessage s) (contentSubject s)
    (toolSubject s) (wsClient s) (audioStreamer s) e (pendingTimers s).

Definition set_pendingTimers (ts : list Timer) (s : ClippoService)
  : ClippoService :=
  mkService (streamSubject s) (screenStream s) (isStreamingSubject s)
    (connectedSubject s) (isConnected s) (streamedMessage s) (contentSubject s)
    (toolSubject s) (wsClient s) (audioStreamer s) (cursorPositionSubject s) ts.

Definition set_stream (subject screen : option MediaStream) (streaming : bool)
  (s : ClippoService) : ClippoService :=
  mkService subject screen streaming
    (connectedSubject s) (isConnected s) (streamedMessage s) (contentSubject s)
    (toolSubject s) (wsClient s) (audioStreamer s) (cursorPositionSubject s)
    (pendingTimers s).

(** [setConnected(connected)] of [ClippoService]: the field, then the
    subject. The subscribers of [connected$] belong to the components and
    are not run here; the one of the control tray, which calls [stop] when
    [false] arrives while a capture is streaming, is outside this
    embedding. *)
Definition setConnected (connected : bool) (s : ClippoService) : ClippoService :=
  mkService (streamSubject s) (screenStream s) (isStreamingSubject s)
    connected connected (streamedMessage s) (contentSubject s)
    (toolSubject s) (wsClient s) (audioStreamer s) (cursorPositionSubject s)
    (pendingTimers s).

(** [setConnected(connected)] of the earlier [ScreenCaptureService] that
    has [connect] and [disconnect]: it feeds [connected$] and does not
    touch the field [isConnected]. Only the subscription made in that
    service's [ngOnInit] would copy the value into the field, and nothing
    in the sources calls [ngOnInit]. *)
Definition setConnectedSubject (connected : bool) (s : ClippoService)
  : ClippoService :=
  mkService (streamSubject s) (screenStream s) (isStreamingSubject s)
    connected (isConnected s) (streamedMessage s) (contentSubject s)
    (toolSubject s) (wsClient s) (audioStreamer s) (cursorPositionSubject s)
    (pendingTimers s).

(** [raiseMoveCursorEvent(x, y)] *)
Definition raiseMoveCursorEvent (x y : JsVal) (s : ClippoService) : ClippoService :=
  set_cursorPositionSubject (Some (mkCursor x y)) s.

(** [setTimeout(cb, delay)] for each timer, in order. *)
Definition setTimeouts (ts : list Timer) (s : ClippoService) : ClippoService :=
  set_pendingTimers (pendingTimers s ++ ts) s.

(** The two awaits of [handleMoveCursorInSequence]: one frame, then the
    locations of all points in it. *)
Definition locate (b : Browser) (stream : MediaStream) (points : list CursorPoint)
  : Async (list JsVal) :=
  await lastCapturedFrame <- captureLastFrame b stream;
  await locations <- getPointsFromImage b lastCapturedFrame points;
  ret locations.

Definition settle (err : option Error) : Promise unit :=
  match err with
  | None => Fulfilled tt
  | Some e => Rejected e
  end.

(** [handleMoveCursorInSequence(toolCall)]: how the returned promise settles
    and the calls made, and the service afterwards. The timers registered
    before an exception in the loop stay registered. The caller never
    awaits the promise: a rejection is an unhandled one. *)
Definition handleMoveCursorInSequence (b : Browser) (toolCall : option ToolCall)
  (s : ClippoService) : Async unit * ClippoService :=
  match toolCall with
  | None => (ret tt, s)
  | Some call =>
      match functionCalls call with
      | first :: _ =>
          if String.eqb (name first) "move_cursor_sequence" then
            let points := points first in
            match points, screenStream s with
            | _ :: _, Some stream =>
                match locate b stream points with
                | (Fulfilled locations, log) =>
                    let (timers, err) := moveCursorLoop points 0 locations 0%Q in
                    ((settle err, log), setTimeouts timers s)
                | (Rejected e, log) => ((Rejected e, log), s)
                | (Pending, log) => ((Pending, log), s)
                end
            | _, _ => (ret tt, s)
            end
          else (ret tt, s)
      | [] => (ret tt, s)
      end
  end.

(** *** Timers *)

(** [setTimeout] takes its delay as a 32-bit integer: the number is
    truncated toward zero and wrapped into the signed 32-bit range, and a
    negative result counts as 0: a delay from 2^31 up to 2^32 milliseconds
    expires at once. *)
Definition truncate (q : Q) : Z := Z.quot (Qnum q) (Zpos (Qden q)).

Definition toInt32 (z : Z) : Z := ((z + 2 ^ 31) mod 2 ^ 32 - 2 ^ 31)%Z.

Definition effectiveDelay (q : Q) : Z := Z.max 0 (toInt32 (truncate q)).

(** The event loop runs the callbacks of timers registered in one
    synchronous stretch in order of the delay [setTimeout] took, and in
    registration order among equal delays. *)
Fixpoint insertTimer (t : Timer) (ts : list Timer) : list Timer :=
  match ts with
  | [] => [t]
  | u :: rest =>
      if (effectiveDelay (timeout u) <=? effectiveDelay (timeout t))%Z
      then u :: insertTimer t rest
      else t :: u :: rest
  end.

Definition firingOrder (ts : list Timer) : list Timer :=
  fold_left (fun fired t => insertTimer t fired) ts [].

(** The callback of one timer. *)
Definition fire (t : Timer) (s : ClippoService) : ClippoService :=
  raiseMoveCursorEvent (x (event t)) (y (event t)) s.

(** What a subscriber of [cursorPosition$] is handed once a callback has
    run: the value the subject then holds. *)
Definition seenAfter (s : ClippoService) (later : list CursorEvent)
  : list CursorEvent :=
  match cursorPositionSubject s with
  | Some position => position :: later
  | None => later
  end.

(** The callbacks of the timers, one after the other: the values seen on
    [cursorPosition$], in order, and the service afterwards. *)
Fixpoint fireAll (fired : list Timer) (s : ClippoService)
  : list CursorEvent * ClippoService :=
  match fired with
  | [] => ([], s)
  | t :: rest =>
      let s := fire t s in
      let later := fireAll rest s in
      (seenAfter s (fst later), snd later)
  end.

(** Let every pending timer expire, the pending timers taken as registered
    in one synchronous stretch, as those of one tool call are: the values
    seen on [cursorPosition$], in order, and the service afterwards. *)
Definition runTimers (s : ClippoService) : list CursorEvent * ClippoService :=
  let run := fireAll (firingOrder (pendingTimers s)) s in
  (fst run, set_pendingTimers [] (snd run)).

(** *** Listeners registered by [setupEventListeners] *)

Inductive WsEvent : Type :=
| OnOpen
| OnLog
| OnContent (data : ServerContent)
| OnToolcall (data : option ToolCall)
| OnClose
| OnInterrupted
| OnAudio (data : list nat).

Definition stopAudioStreamer (s : ClippoService) : ClippoService :=
  match audioStreamer s with
  | Some a => set_audioStreamer (Some (audio_stop a)) s
  | None => s
  end.

Definition addAudioData (data : list nat) (s : ClippoService) : ClippoService :=
  match audioStreamer s with
  | Some a => set_audioStreamer (Some (audio_addPCM16 data a)) s
  | None => s
  end.

Definition listener (b : Browser) (ev : WsEvent) (s : ClippoService)
  : ClippoService * list Effect :=
  match ev with
  | OnOpen => (s, [])
  | OnLog => (s, [])
  | OnContent data => (set_contentSubject (Some data) s, [])
  | OnToolcall data =>
      let '((_, log), s') :=
        handleMoveCursorInSequence b data (set_toolSubject data s) in
      (s', log)
  | OnClose => (setConnected false s, [])
  | OnInterrupted => (stopAudioStreamer s, [])
  | OnAudio data => (addAudioData data s, [])
  end.

(** *** Connecting and sending *)

Variable config : LiveConfig.

(** [start()] of [ClippoService]. The subscriber of [stream$] that wraps
    the [stop] of each track is not modelled. *)
Definition start (b : Browser) (s : ClippoService)
  : Async (option MediaStream) * ClippoService :=
  let s := set_wsClient (ws_disconnect (wsClient s)) s in
  let (connected, c) := ws_connect config (wsClient s) in
  let s := set_wsClient c s in
  match connected with
  | Fulfilled _ =>
      let s := setConnected true s in
      match getDisplayMedia b with
      | Fulfilled mediaStream =>
          ((Fulfilled mediaStream, [GetDisplayMedia]),
           set_stream mediaStream mediaStream true s)
      | Rejected _ =>
          ((Fulfilled None, [GetDisplayMedia]),
           set_stream (streamSubject s) (screenStream s) false s)
      | Pending => ((Pending, [GetDisplayMedia]), s)
      end
  | Rejected error => ((Rejected error, []), setConnected false s)
  | Pending => ((Pending, []), s)
  end.

(** [connect(config)] of the earlier [ScreenCaptureService] that keeps
    connecting apart from starting the capture; its [setConnected] is
    [setConnectedSubject]. *)
Definition connect (s : ClippoService) : Promise unit * ClippoService :=
  let s := set_wsClient (ws_disconnect (wsClient s)) s in
  let (connected, c) := ws_connect config (wsClient s) in
  let s := set_wsClient c s in
  match connected with
  | Fulfilled _ => (Fulfilled tt, setConnectedSubject true s)
  | Rejected error => (Rejected error, setConnectedSubject false s)
  | Pending => (Pending, s)
  end.

(** [disconnect()] of the same service. *)
Definition disconnect (s : ClippoService) : ClippoService :=
  let s := set_wsClient (ws_disconnect (wsClient s)) s in
  let s := stopAudioStreamer s in
  setConnectedSubject false s.

(** [stop()] of [ClippoService]: the client is disconnected, the audio
    stopped, the service marked not connected; then [track.stop()] is
    called on every track of the current stream, which ends it, and the
    calls are logged. [screenStream] is not written: it keeps the stream
    whose tracks were stopped. *)
Definition stop (s : ClippoService) : ClippoService * list Effect :=
  let s := set_wsClient (ws_disconnect (wsClient s)) s in
  let s := stopAudioStreamer s in
  let s := setConnected false s in
  match streamSubject s with
  | Some stream =>
      (set_stream None (screenStream s) false s, map TrackStop (getTracks stream))
  | None => (s, [])
  end.

(** [send(message)] *)
Definition send (message : string) (s : ClippoService)
  : Promise unit * ClippoService :=
  if negb (isConnected s) then (Rejected NotConnected, s)
  else
    let s := set_streamedMessage "" s in
    if String.eqb message "" then (Fulfilled tt, s)
    else
      let part := TextPart message in
      let (thrown, c) := ws_send part (wsClient s) in
      (settle thrown, set_wsClient c s).

(** [sendRealtimeInput(chunks)] *)
Definition sendRealtimeInput (chunks : list GenerativeContentBlob)
  (s : ClippoService) : Promise unit * ClippoService :=
  let (thrown, c) := ws_sendRealtimeInput chunks (wsClient s) in
  (settle thrown, set_wsClient c s).

End Service.

Arguments ClippoService C A : clear implicits.

(** ** The websocket client *)

Module Protocol.

(** Modelled from the spec: the module [ws-client] is missing from the
    sources; these are the session states of the protocol client as the
    data model lists them (3, 4.1). [Active] carries the transport the
    session runs over. *)
Inductive SessionState : Type :=
| Idle
| Connecting
| Active (transport : nat)
| Closing
| Closed
| ClosedError.

(** Modelled from the spec: the outbound frames of the missing
    [ws-client] (4.1, 6): the setup message, a client-content message, and
    one realtime-input message per media chunk. *)
Inductive WireMessage : Type :=
| Setup (config : LiveConfig)
| ClientContent (part : Part)
| RealtimeInput (chunk : GenerativeContentBlob).

(** Modelled from the spec: the state of the missing [ws-client] together
    with the network it talks to: the session state, the transports that
    are open, those that were closed, the number the next transport gets,
    whether the transport with a given number will open, and every
    message written so far. *)
Record Client : Type := mkClient {
  session : SessionState;
  openTransports : list nat;
  closedTransports : list nat;
  nextTransport : nat;
  opens : nat -> bool;
  written : list (nat * WireMessage)
}.

Definition isActive (c : Client) : bool :=
  match session c with Active _ => true | _ => false end.

(** Modelled from the spec: [connect] of the missing [ws-client]
    ([MultimodalLiveClient]), as the session protocol client is described
    (4.1): it opens the transport, sends a setup message built from the
    configuration and resolves once the transport confirms open (the state
    is then active), or rejects with a connection error if the transport
    fails before that (the state is then closed with an error). It does
    not look at the transport of an earlier session: tearing that down is
    what its callers [start] and [connect] do by calling [disconnect]
    first. *)
Definition client_connect (config : LiveConfig) (c : Client) : Promise unit * Client :=
  let t := nextTransport c in
  if opens c t then
    (Fulfilled tt,
     mkClient (Active t) (t :: openTransports c) (closedTransports c) (S t)
       (opens c) (written c ++ [(t, Setup config)]))
  else
    (Rejected ConnectionError,
     mkClient ClosedError (openTransports c) (closedTransports c) (S t)
       (opens c) (written c)).

(** Modelled from the spec: [disconnect] of the missing [ws-client]: closes
    the transport if open; always leaves the state closed; never throws;
    closing an already closed session is a no-op. *)
Definition client_disconnect (c : Client) : Client :=
  match session c with
  | Active t =>
      mkClient Closed (filter (fun u => negb (Nat.eqb u t)) (openTransports c))
        (t :: closedTransports c) (nextTransport c) (opens c) (written c)
  | _ =>
      mkClient Closed (openTransports c) (closedTransports c) (nextTransport c)
        (opens c) (written c)
  end.

(** Modelled from the spec: [send] of the missing [ws-client]: fails with a
    not-connected error if the state is not active; otherwise frames the
    text as a single client-content message and writes it. *)
Definition client_send (part : Part) (c : Client) : option Error * Client :=
  match session c with
  | Active t =>
      (None,
       mkClient (Active t) (openTransports c) (closedTransports c)
         (nextTransport c) (opens c) (written c ++ [(t, ClientContent part)]))
  | _ => (Some NotConnected, c)
  end.

(** Modelled from the spec: [sendRealtimeInput] of the missing [ws-client]:
    fails with a not-connected error if not active; writes each chunk as a
    realtime-input message, each chunk its own wire message. *)
Definition client_sendRealtimeInput (chunks : list GenerativeContentBlob)
  (c : Client) : option Error * Client :=
  match session c with
  | Active t =>
      (None,
       mkClient (Active t) (openTransports c) (closedTransports c)
         (nextTransport c) (opens c)
         (written c ++ map (fun chunk => (t, RealtimeInput chunk)) chunks))
  | _ => (Some NotConnected, c)
  end.

(** Modelled from the spec: the four operations above as the client the
    service holds. *)
#[global] Instance client_ops : WsClient Client := {
  ws_connect := client_connect;
  ws_disconnect := client_disconnect;
  ws_send := client_send;
  ws_sendRealtimeInput := client_sendRealtimeInput
}.

(** A client that was never connected. *)
Definition fresh (opens : nat -> bool) : Client :=
  mkClient Idle [] [] 0 opens [].

(** The open transports are exactly the one of the active session. *)
Definition tidy (c : Client) : Prop :=
  openTransports c = match session c with Active t => [t] | _ => [] end
  /\ Forall (fun t => t < nextTransport c) (openTransports c)
  /\ Forall (fun t => t < nextTransport c) (closedTransports c).

End Protocol.

(** ** The audio streamer *)

Module Audio.

(** Modelled from the spec: the module [audio-streamer] is missing from the
    sources, the service only calls its [stop] and [addPCM16]. The streamer
    is the buffers it still has to play and the number of times it was
    stopped: a chunk is queued in arrival order, and on a stop all
    not-yet-played buffers are cancelled. *)
Record Streamer : Type := mkStreamer {
  queued : list (list nat);
  stops : nat
}.

(** Modelled from the spec: [stop] and [addPCM16] of the missing
    [audio-streamer] (4.2): a stop cancels every buffer not yet played, a
    chunk is queued behind the ones before it. *)
#[global] Instance streamer_ops : AudioOut Streamer := {
  audio_stop a := mkStreamer [] (S (stops a));
  audio_addPCM16 data a := mkStreamer (queued a ++ [data]) (stops a)
}.

End Audio.

(** ** The chat transcript of the application component *)

Module AppComponent.

(** [ChatMessage] *)
Record ChatMessage : Type := mkMessage {
  role : string;
  text : string
}.

(** The element with id [ai-cursor], as far as the component writes to it:
    [style.left] and [style.top], in pixels. *)
Record AiCursor : Type := mkAiCursor {
  styleLeft : Q;
  styleTop : Q
}.

(** [window.innerWidth] and [window.innerHeight], and what
    [document.getElementById('ai-cursor')] finds. *)
Record Document : Type := mkDocument {
  innerWidth : Q;
  innerHeight : Q;
  aiCursor : option AiCursor
}.

(** The fields of [AppComponent] that its methods read or write;
    [formMessage] is [chatForm.value.message]. *)
Record State : Type := mkApp {
  isConnected : bool;
  streamedMessage : string;
  messages : list ChatMessage;
  formMessage : option string;
  cursorVisible : bool
}.

(** [turn.modelTurn.parts?.[0]?.text]; a first part without text, or no
    part at all, gives [undefined], which the callers treat like the empty
    text. *)
Definition firstText (parts : list string) : string :=
  match parts with
  | [] => ""
  | t :: _ => t
  end.

(** [this.messages.pop()] when a message is being streamed. *)
Definition popStreamed (a : State) : list ChatMessage :=
  if Nat.ltb 0 (String.length (streamedMessage a))
  then removelast (messages a)
  else messages a.

(** [handleModelTurn(turn)] *)
Definition handleModelTurn (parts : list string) (a : State) : State :=
  let popped := popStreamed a in
  let incomingMessage := firstText parts in
  if negb (String.eqb incomingMessage "") then
    let streamed := (streamedMessage a ++ incomingMessage)%string in
    mkApp (isConnected a) streamed (popped ++ [mkMessage "model" streamed])%list
      (formMessage a) (cursorVisible a)
  else
    mkApp (isConnected a) (streamedMessage a) popped (formMessage a)
      (cursorVisible a).

(** [handleTurnComplete()] *)
Definition handleTurnComplete (a : State) : State :=
  mkApp (isConnected a) ""
    (messages a ++ [mkMessage "model" (streamedMessage a)])%list
    (formMessage a) (cursorVisible a).

(** [handleContent(data)]: a value carries either a model turn, or the
    turn-complete flag, or neither. *)
Definition handleContent (data : option ServerContent) (a : State) : State :=
  match data with
  | None => a
  | Some (ModelTurn parts) => handleModelTurn parts a
  | Some TurnComplete => handleTurnComplete a
  | Some Interrupted => a
  end.

(** The subscriber of [content$] in the earlier components and services
    ([ngOnInit]): the value is used as a model turn whatever it is, so on a
    value without [modelTurn] the read of [turn.modelTurn.parts] throws,
    after the pop. *)
Definition contentSubscriber (data : option ServerContent) (a : State)
  : option Error * State :=
  match data with
  | None => (None, a)
  | Some (ModelTurn parts) => (None, handleModelTurn parts a)
  | Some _ =>
      (Some TypeError,
       mkApp (isConnected a) (streamedMessage a) (popStreamed a) (formMessage a)
         (cursorVisible a))
  end.

(** The subscriber of [connected$]. *)
Definition connectedSubscriber (connected : bool) (a : State) : State :=
  mkApp connected (streamedMessage a) (messages a) (formMessage a)
    (cursorVisible a).

(** [moveCursorToPosition(position)] for a position of the declared type
    [{ x: number; y: number }]: normalized coordinates (0-1000) converted to
    viewport coordinates. *)
Definition moveCursorToPosition (px py : Q) (d : Document) (a : State)
  : Document * State :=
  let viewportX := ((px / 1000) * innerWidth d)%Q in
  let viewportY := ((py / 1000) * innerHeight d)%Q in
  match aiCursor d with
  | Some _ =>
      (mkDocument (innerWidth d) (innerHeight d)
         (Some (mkAiCursor viewportX viewportY)),
       mkApp (isConnected a) (streamedMessage a) (messages a) (formMessage a) true)
  | None => (d, a)
  end.

(** The subscriber of [cursorPosition$]; [None] when a coordinate is not a
    number, which the declared type of the stream excludes. *)
Definition cursorSubscriber (position : option CursorEvent) (d : Document)
  (a : State) : option (Document * State) :=
  match position with
  | None => Some (d, a)
  | Some (mkCursor (JNum px) (JNum py)) => Some (moveCursorToPosition px py d a)
  | Some _ => None
  end.

(** [ngOnDestroy()] *)
Definition ngOnDestroy (a : State) : State :=
  mkApp (isConnected a) (streamedMessage a) (messages a) (formMessage a) false.

Section Send.

Context {C A : Type} `{WsClient C} `{AudioOut A}.

(** [String.prototype.trim], left to the platform. *)
Variable trim : string -> string.

(** [send()] of the component over [ClippoService]: the promise that the
    service's [send] returns is dropped. *)
Definition send (a : State) (s : ClippoService C A)
  : State * ClippoService C A :=
  match formMessage a with
  | None => (a, s)
  | Some value =>
      let message := trim value in
      if String.eqb message "" then (a, s)
      else
        let s' := snd (send message s) in
        (mkApp (isConnected a) ""
           (messages a ++ [mkMessage "user" message])%list None
           (cursorVisible a),
         s')
  end.

End Send.

End AppComponent.

(** ** The video frames of the control tray *)

Module ControlTray.

(** The [HTMLVideoElement] behind [videoRef]. *)
Record Video : Type := mkVideo {
  videoWidth : nat;
  videoHeight : nat
}.

(** The canvas behind [renderCanvasRef]: whether [getContext('2d')] gives
    a context, and its size. *)
Record Canvas : Type := mkCanvas {
  hasContext : bool;
  width : nat;
  height : nat
}.

(** The fields of [ControlTrayComponent] that [sendVideoFrame] reads or
    writes, plus the delays of the [setTimeout(this.sendVideoFrame, ...)]
    calls that have not run yet. *)
Record State : Type := mkTray {
  isConnected : bool;
  videoRef : option Video;
  renderCanvasRef : option Canvas;
  frameTimers : list Q
}.

Section Frames.

Context {C A : Type} `{WsClient C} `{AudioOut A}.

(** [canvas.toDataURL('image/jpeg', 1.0)] for a canvas of a given size
    showing the current video frame. *)
Variable toDataURL : nat -> nat -> string.

(** [sendVideoFrame]: assigning [videoWidth * 0.25] to [canvas.width]
    keeps the integer part; the promise of [sendRealtimeInput] is
    dropped. [Some TypeError] is the throw of [canvas.getContext] on a
    canvas that is not there. *)
Definition sendVideoFrame (t : State) (s : ClippoService C A)
  : option Error * State * ClippoService C A :=
  if negb (isStreamingSubject s) then (None, t, s)
  else
    match renderCanvasRef t with
    | None => (Some TypeError, t, s)
    | Some canvas =>
        match videoRef t with
        | None => (None, t, s)
        | Some video =>
            if negb (hasContext canvas) then (None, t, s)
            else
              let w := Nat.div (videoWidth video) 4 in
              let h := Nat.div (videoHeight video) 4 in
              let s' :=
                if Nat.ltb 0 (w + h) then
                  let base64 := toDataURL w h in
                  let data := sliceAfter "," base64 in
                  snd (sendRealtimeInput [mkBlob "image/jpeg" data] s)
                else s in
              let timers :=
                if isConnected t
                then (frameTimers t ++ [(1000 / (5 # 10))%Q])%list
                else frameTimers t in
              (None,
               mkTray (isConnected t) (videoRef t)
                 (Some (mkCanvas true w h)) timers,
               s')
        end
    end.

End Frames.

End ControlTray.

(** ** The screen capture service on its own *)

Module ScreenCapture.

(** A [MediaStream] with its tracks ([getTracks()]). *)
Record Stream : Type := mkStream {
  tracks : list nat
}.

(** [ScreenCaptureService] of [screen-capture.service.ts]: the two
    subjects with their current value and everything they emitted after
    their first value, the tracks whose own [stop] ran, the tracks whose
    [stop] the subscriber of [stream$] wrapped (once per wrapping), and
    whether that subscriber still listens. *)
Record State : Type := mkState {
  streamSubject : option Stream;
  isStreamingSubject : bool;
  streamLog : list (option Stream);
  streamingLog : list bool;
  stopped : list nat;
  wrapped : list nat;
  subscribed : bool
}.

(** [isStreamingSubject.next(b)] *)
Definition nextStreaming (b : bool) (st : State) : State :=
  mkState (streamSubject st) b (streamLog st) (streamingLog st ++ [b])
    (stopped st) (wrapped st) (subscribed st).

(** [streamSubject.next(v)], with the subscriber the constructor
    registered: for a stream it adds the ended-listener to every track and
    wraps the track's [stop]. *)
Definition nextStream (v : option Stream) (st : State) : State :=
  mkState v (isStreamingSubject st) (streamLog st ++ [v]) (streamingLog st)
    (stopped st)
    (match v with
     | Some stream =>
         if subscribed st then wrapped st ++ tracks stream else wrapped st
     | None => wrapped st
     end)
    (subscribed st).

(** [handleStreamEnded] *)
Definition handleStreamEnded (st : State) : State :=
  nextStream None (nextStreaming false st).

Fixpoint times {X : Type} (n : nat) (f : X -> X) (v : X) : X :=
  match n with
  | O => v
  | S n' => times n' f (f v)
  end.

(** [track.stop()]: the original [stop], then [handleStreamEnded] once for
    every wrapper around it. *)
Definition trackStop (track : nat) (st : State) : State :=
  let st' :=
    mkState (streamSubject st) (isStreamingSubject st) (streamLog st)
      (streamingLog st) (stopped st ++ [track]) (wrapped st) (subscribed st) in
  times (count_occ Nat.eq_dec (wrapped st) track) handleStreamEnded st'.

(** The ended event of a track (the user stops sharing): every listener
    added to the track runs. *)
Definition trackEnded (track : nat) (st : State) : State :=
  times (count_occ Nat.eq_dec (wrapped st) track) handleStreamEnded st.

(** [start()], given how [getDisplayMedia] settles. *)
Definition start (picker : Promise (option Stream)) (st : State)
  : Promise (option Stream) * State :=
  match picker with
  | Fulfilled mediaStream =>
      (Fulfilled mediaStream, nextStreaming true (nextStream mediaStream st))
  | Rejected _ => (Fulfilled None, nextStreaming false st)
  | Pending => (Pending, st)
  end.

(** [stop()] *)
Definition stop (st : State) : State :=
  match streamSubject st with
  | Some stream =>
      let st := fold_left (fun st track => trackStop track st) (tracks stream) st in
      nextStreaming false (nextStream None st)
  | None => st
  end.

(** [ngOnDestroy()] *)
Definition ngOnDestroy (st : State) : State :=
  stop (mkState (streamSubject st) (isStreamingSubject st) (streamLog st)
          (streamingLog st) (stopped st) (wrapped st) false).

(** The service as constructed. *)
Definition created : State := mkState None false [] [] [] [] true.

End ScreenCapture.

(** ** Notions for the further properties *)

(** [s.indexOf(',')] is -1. *)
Definition commaFree (s : string) : Prop := String.index 0 "," s = None.

(** The event the loop registers for a location, if it registers one and
    does not throw on it. *)
Definition eventAt (loc : JsVal) : option CursorEvent :=
  match pointOf loc with
  | Some point =>
      if truthy point then
        match destructure2 point with
        | Some (py, px) => Some (mkCursor px py)
        | None => None
        end
      else None
  | None => None
  end.

(** A location the loop throws on: the read of its point throws, or the
    point is there and cannot be destructured. *)
Definition malformed (loc : JsVal) : Prop :=
  pointOf loc = None
  \/ exists point,
       pointOf loc = Some point /\ truthy point = true
       /\ destructure2 point = None.

(** A location with a point that the loop registers. *)
Definition located (loc : JsVal) : Prop := eventAt loc <> None.

(** The text of a sequence of model turns as the component shows it: the
    text of the first part of each turn, joined. *)
Definition shownText (turns : list (list string)) : string :=
  fold_right (fun parts acc => (AppComponent.firstText parts ++ acc)%string) "" turns.

(** The component after a sequence of values of [content$]. *)
Definition received (contents : list (option ServerContent))
  (a : AppComponent.State) : AppComponent.State :=
  fold_left (fun a data => AppComponent.handleContent data a) contents a.

(** A sequence of model turns as values of [content$]. *)
Definition modelTurns (turns : list (list string)) : list (option ServerContent) :=
  map (fun parts => Some (ModelTurn parts)) turns.

(** * Notions the properties are stated with *)

(** ** Delays *)

(** The declared delays, summed, in seconds. *)
Fixpoint sumDelays (ps : list CursorPoint) : Q :=
  match ps with
  | [] => 0%Q
  | p :: rest => (delay p + sumDelays rest)%Q
  end.

(** The running sum of the declared delays up to and including point [i]. *)
Definition runningSum (ps : list CursorPoint) (i : nat) : Q :=
  sumDelays (firstn (S i) ps).

(** The value of [cumulativeDelay] after [n] more rounds of the loop that
    start at index [i] with value [cum]. *)
Fixpoint delayAfter (pts : list CursorPoint) (i n : nat) (cum : Q) : Q :=
  match n with
  | O => cum
  | S n' =>
      match nth_error pts i with
      | Some p => delayAfter pts (S i) n' (cum + delay p * 1000)%Q
      | None => cum
      end
  end.

Definition nonNegative (ps : list CursorPoint) : Prop :=
  Forall (fun p => (0 <= delay p)%Q) ps.

Definition earlier (t u : Timer) : Prop := (timeout t <= timeout u)%Q.

(** [t] does not expire after [u]. *)
Definition notAfter (t u : Timer) : Prop :=
  (effectiveDelay (timeout t) <= effectiveDelay (timeout u))%Z.






(** ** Lookups and the calls made *)

(** A lookup fails when the model call rejects or its text is not JSON. *)
Definition lookupFails (b : Browser) (frame : string) (k : nat) (p : CursorPoint)
  : Prop :=
  match generateContent b k (imageData frame) (prompt (description p)) with
  | Fulfilled text => JSON_parse b text = None
  | Rejected _ => True
  | Pending => False
  end.

Definition isDrawImage (e : Effect) : bool :=
  match e with DrawImage _ => true | _ => false end.

(** The points of the round trip. *)
Definition pad : CursorPoint := mkPoint "pad" 0%Q.
Definition button : CursorPoint := mkPoint "button" 3%Q.

Definition at_100_200 : JsVal := JArr [JNum 100%Q; JNum 200%Q].
Definition at_400_500 : JsVal := JArr [JNum 400%Q; JNum 500%Q].

(** What isolating a failed lookup would mean for one tool call: if the
    lookup of some point fails, every other point whose lookup gave a
    usable location still has its timer, at the running sum of the delays
    up to its own. *)
Definition failureIsolated {C A : Type} (b : Browser) (s : ClippoService C A)
  (call : ToolCall)
  : Prop :=
  forall first rest stream frame,
    functionCalls call = first :: rest ->
    name first = "move_cursor_sequence" ->
    screenStream s = Some stream ->
    fst (captureLastFrame b stream) = Fulfilled frame ->
    (exists k p, nth_error (points first) k = Some p /\ lookupFails b frame k p) ->
    forall j q v point py px,
      nth_error (points first) j = Some q ->
      lookup b frame j q = Fulfilled v ->
      pointOf v = Some point ->
      truthy point = true ->
      destructure2 point = Some (py, px) ->
      exists t,
        In t (pendingTimers (snd (handleMoveCursorInSequence b (Some call) s)))
        /\ event t = mkCursor px py
        /\ (timeout t == runningSum (points first) j * 1000)%Q.

(** ** Sessions *)

(** What [start] and [connect] do to the client: tear down, then open. *)
Definition reconnect (config : LiveConfig) (c : Protocol.Client) : Protocol.Client :=
  snd (Protocol.client_connect config (Protocol.client_disconnect c)).

(** What is claimed of [send]: not connected, it fails with the
    not-connected error and writes nothing; with an active session, it
    writes the text as one client-content message and does not throw. *)
Definition sendsEveryText {A : Type} (message : string)
  (s : ClippoService Protocol.Client A) : Prop :=
  (isConnected s = false ->
   fst (send message s) = Rejected NotConnected
   /\ Protocol.written (wsClient (snd (send message s))) = Protocol.written (wsClient s))
  /\ (forall t,
        isConnected s = true ->
        Protocol.session (wsClient s) = Protocol.Active t ->
        fst (send message s) = Fulfilled tt
        /\ Protocol.written (wsClient (snd (send message s)))
           = Protocol.written (wsClient s) ++ [(t, Protocol.ClientContent (TextPart message))]).

(** * Concrete inputs *)

Module Demo.

Import Protocol Audio.

Local Open Scope list_scope.

Definition config : LiveConfig :=
  mkConfig "models/gemini-2.0-flash-exp" "audio" "Aoede"
    "You are a helpful assistant that can move your cursor." ["move_cursor_sequence"].

Definition stream : MediaStream := mkStream 1 [7] [8].

Definition frame : string := "data:image/jpeg;base64,AAAA".

Definition padReply : JsVal := JObj [("point", at_100_200); ("label", JStr "pad")].
Definition buttonReply : JsVal := JObj [("point", at_400_500); ("label", JStr "button")].
Definition noPoint : JsVal := JObj [("label", JStr "nothing found")].

Definition parse (text : string) : option JsVal :=
  if String.eqb text "pad-json" then Some padReply
  else if String.eqb text "button-json" then Some buttonReply
  else if String.eqb text "no-point-json" then Some noPoint
  else None.

(** A browser whose model finds both targets. *)
Definition browser : Browser :=
  mkBrowser (fun _ => true) true (fun _ => frame)
    (fun _ _ text =>
       if String.eqb text (prompt "pad") then Fulfilled "pad-json"
       else if String.eqb text (prompt "button") then Fulfilled "button-json"
       else Fulfilled "no-point-json")
    parse (Fulfilled (Some stream)).

(** A browser whose model call for "pad" rejects. *)
Definition padRejects : Browser :=
  mkBrowser (fun _ => true) true (fun _ => frame)
    (fun _ _ text =>
       if String.eqb text (prompt "pad") then Rejected ModelError
       else if String.eqb text (prompt "button") then Fulfilled "button-json"
       else Fulfilled "no-point-json")
    parse (Fulfilled (Some stream)).

(** The service as constructed, over a network on which transports open. *)
Definition initial : ClippoService Client Streamer :=
  mkService None None false false false "" None None
    (fresh (fun _ => true)) (Some (mkStreamer [] 0)) None [].

(** The service after [start()]: connected, with a screen stream. *)
Definition capturing : ClippoService Client Streamer :=
  snd (start config browser initial).

Definition sequence : FunctionCall :=
  mkCall "move_cursor_sequence" [pad; button].


Definition delays : list float := [2.01%float; 2.03%float].

Definition call : ToolCall := mkToolCall [sequence].

Definition chunk : GenerativeContentBlob := mkBlob "image/jpeg" "AAAA".

Definition search : FunctionCall := mkCall "google_search" [].

End Demo.

(** * Further concrete inputs *)

Module Samples.

Import Protocol Audio.

Local Open Scope list_scope.

(** A browser whose model answers "button" with the JSON text [null]. *)
Definition buttonNull : Browser :=
  mkBrowser (fun _ => true) true (fun _ => Demo.frame)
    (fun _ _ text =>
       if String.eqb text (prompt "pad") then Fulfilled "pad-json"
       else Fulfilled "null-json")
    (fun text =>
       if String.eqb text "null-json" then Some JNull else Demo.parse text)
    (Fulfilled (Some Demo.stream)).

(** A browser whose model never answers for "button". *)
Definition buttonPending : Browser :=
  mkBrowser (fun _ => true) true (fun _ => Demo.frame)
    (fun _ _ text =>
       if String.eqb text (prompt "pad") then Fulfilled "pad-json"
       else Pending)
    Demo.parse (Fulfilled (Some Demo.stream)).

(** A browser in which the user dismisses the screen picker. *)
Definition pickerDismissed : Browser :=
  mkBrowser (fun _ => true) true (fun _ => Demo.frame)
    (fun _ _ _ => Pending) Demo.parse (Rejected ModelError).

(** The service as constructed, over a network on which no transport
    opens. *)
Definition offline : ClippoService Client Streamer :=
  mkService None None false false false "" None None
    (fresh (fun _ => false)) (Some (mkStreamer [] 0)) None [].

(** The service with the two timers of a first sequence pending. *)
Definition choreographed : ClippoService Client Streamer :=
  snd (handleMoveCursorInSequence Demo.browser (Some Demo.call) Demo.capturing).

(** The component with a greeting in the transcript and a question typed
    into the form. *)
Definition component : AppComponent.State :=
  AppComponent.mkApp false "" [AppComponent.mkMessage "user" "Hello"]
    (Some "Where is the pad?") false.

(** The component while "Here" is being streamed. *)
Definition streaming : AppComponent.State :=
  AppComponent.mkApp true "Here"
    [AppComponent.mkMessage "user" "Hello"; AppComponent.mkMessage "model" "Here"]
    None false.

(** A page of 1280 by 720 pixels with the cursor element. *)
Definition page : AppComponent.Document :=
  AppComponent.mkDocument 1280%Q 720%Q (Some (AppComponent.mkAiCursor 0%Q 0%Q)).

(** The control tray, connected, showing a video of 1280 by 720. *)
Definition tray : ControlTray.State :=
  ControlTray.mkTray true (Some (ControlTray.mkVideo 1280 720))
    (Some (ControlTray.mkCanvas true 300 150)) [].

(** A capture with a video and an audio track. *)
Definition capture : ScreenCapture.Stream := ScreenCapture.mkStream [1; 2].

End Samples.

(** * Properties *)

Unset Implicit Arguments.

(** ** The scheduling loop *)

Section Loop.

Local Open Scope Q_scope.
Local Open Scope list_scope.

Lemma fst_consTimer t r : fst (consTimer t r) = t :: fst r.
Proof. reflexivity. Qed.

Lemma snd_consTimer t r : snd (consTimer t r) = snd r.
Proof. reflexivity. Qed.

(** One round on a point without a usable location: nothing is registered,
    the delay is added. *)
Lemma loop_round_skipped pts i loc rest cum point p :
  pointOf loc = Some point ->
  nth_error pts i = Some p ->
  truthy point = false ->
  moveCursorLoop pts i (loc :: rest) cum
  = moveCursorLoop pts (S i) rest (cum + delay p * 1000).
Proof.
  intros Hloc Hp Hfalsy. simpl. now rewrite Hloc, Hp, Hfalsy.
Qed.

(** One round on a located point: its timer is registered at the delay
    that includes the point's own. *)
Lemma loop_round_located pts i loc rest cum point p py px :
  pointOf loc = Some point ->
  nth_error pts i = Some p ->
  truthy point = true ->
  destructure2 point = Some (py, px) ->
  moveCursorLoop pts i (loc :: rest) cum
  = consTimer (mkTimer (cum + delay p * 1000) (mkCursor px py))
      (moveCursorLoop pts (S i) rest (cum + delay p * 1000)).
Proof.
  intros Hloc Hp Htruthy Hyx. simpl. now rewrite Hloc, Hp, Htruthy, Hyx.
Qed.

(** The loop over [l1 ++ l2], when it gets through [l1], is the loop over
    [l1] followed by the loop over [l2] from where [l1] left the index and
    the delay. *)
Lemma loop_app pts l1 : forall l2 i cum,
  snd (moveCursorLoop pts i l1 cum) = None ->
  moveCursorLoop pts i (l1 ++ l2) cum
  = (fst (moveCursorLoop pts i l1 cum)
       ++ fst (moveCursorLoop pts (i + List.length l1) l2
                 (delayAfter pts i (List.length l1) cum)),
     snd (moveCursorLoop pts (i + List.length l1) l2
            (delayAfter pts i (List.length l1) cum))).
Proof.
  induction l1 as [|loc l1 IH]; intros l2 i cum Hdone.
  - simpl. rewrite Nat.add_0_r. now destruct (moveCursorLoop pts i l2 cum).
  - simpl in *.
    destruct (pointOf loc) as [point|]; [|discriminate].
    destruct (nth_error pts i) as [p|]; [|discriminate].
    replace (i + S (List.length l1))%nat with (S i + List.length l1)%nat by lia.
    destruct (truthy point).
    + destruct (destructure2 point) as [[py px]|]; [|discriminate].
      rewrite snd_consTimer in Hdone.
      rewrite (IH l2 (S i) _ Hdone). reflexivity.
    + apply (IH l2 (S i) _ Hdone).
Qed.

(** When the loop gets through [n] locations from index [i], there were
    [n] points to read. *)
Lemma loop_done_length pts locs : forall i cum,
  (i <= List.length pts)%nat ->
  snd (moveCursorLoop pts i locs cum) = None ->
  (i + List.length locs <= List.length pts)%nat.
Proof.
  induction locs as [|loc locs IH]; intros i cum Hi Hdone; simpl in *.
  - lia.
  - destruct (pointOf loc) as [point|]; [|discriminate].
    destruct (nth_error pts i) as [p|] eqn:Hp; [|discriminate].
    assert (Hlt : (i < List.length pts)%nat).
    { apply nth_error_Some. rewrite Hp. discriminate. }
    assert (Hrest : snd (moveCursorLoop pts (S i) locs (cum + delay p * 1000)) = None).
    { destruct (truthy point); [|exact Hdone].
      destruct (destructure2 point) as [[py px]|]; [|discriminate].
      exact Hdone. }
    specialize (IH _ _ Hlt Hrest). lia.
Qed.

Lemma sumDelays_nonneg ps : nonNegative ps -> 0 <= sumDelays ps.
Proof.
  induction 1 as [|p ps Hp _ IH]; simpl.
  - apply Qle_refl.
  - replace 0 with (0 + 0) by reflexivity. now apply Qplus_le_compat.
Qed.

(** With non-negative delays every timer is registered no earlier than the
    delay the loop entered with, and the timers come out in order. *)
Lemma loop_sorted pts locs : forall i cum,
  nonNegative pts ->
  Forall (fun t => cum <= timeout t) (fst (moveCursorLoop pts i locs cum))
  /\ StronglySorted earlier (fst (moveCursorLoop pts i locs cum)).
Proof.
  induction locs as [|loc locs IH]; intros i cum Hpos; simpl.
  - split; constructor.
  - destruct (pointOf loc) as [point|]; [|split; constructor].
    destruct (nth_error pts i) as [p|] eqn:Hp; [|split; constructor].
    assert (Hstep : cum <= cum + delay p * 1000).
    { apply nth_error_In in Hp.
      unfold nonNegative in Hpos. rewrite Forall_forall in Hpos.
      specialize (Hpos p Hp).
      rewrite <- (Qplus_0_r cum) at 1.
      apply Qplus_le_compat; [apply Qle_refl|].
      apply Qmult_le_0_compat; [exact Hpos|discriminate]. }
    destruct (IH (S i) (cum + delay p * 1000) Hpos) as [Hlate Hsorted].
    assert (Hlate' : Forall (fun t => cum <= timeout t)
                       (fst (moveCursorLoop pts (S i) locs (cum + delay p * 1000)))).
    { eapply Forall_impl; [|exact Hlate].
      intros t Ht. eapply Qle_trans; eassumption. }
    destruct (truthy point); [|split; assumption].
    destruct (destructure2 point) as [[py px]|]; [|split; constructor].
    rewrite fst_consTimer. split.
    + constructor; [exact Hstep | exact Hlate'].
    + constructor; [exact Hsorted | exact Hlate].
Qed.

Lemma skipn_nth {X : Type} (l : list X) : forall i v,
  nth_error l i = Some v -> skipn i l = v :: skipn (S i) l.
Proof.
  induction l as [|a l IH]; intros [|i] v Hv; simpl in *; try discriminate.
  - now injection Hv as ->.
  - now apply IH.
Qed.

Lemma nonNegative_skipn ps : forall i, nonNegative ps -> nonNegative (skipn i ps).
Proof.
  unfold nonNegative.
  induction ps as [|p ps IH]; intros [|i] Hpos; simpl; try assumption.
  apply IH. now inversion Hpos.
Qed.

(** With non-negative delays no timer is registered later than the delay
    on entry plus all the delays still to come. *)
Lemma loop_bounded pts locs : forall i cum,
  nonNegative pts ->
  Forall (fun t => timeout t <= cum + sumDelays (skipn i pts) * 1000)
    (fst (moveCursorLoop pts i locs cum)).
Proof.
  induction locs as [|loc locs IH]; intros i cum Hpos; simpl.
  - constructor.
  - destruct (pointOf loc) as [point|]; [|constructor].
    destruct (nth_error pts i) as [p|] eqn:Hp; [|constructor].
    rewrite (skipn_nth pts i p Hp). cbn [sumDelays].
    pose proof (sumDelays_nonneg _ (nonNegative_skipn pts (S i) Hpos)) as Hrest.
    assert (Hlater : Forall
              (fun t => timeout t
                        <= cum + (delay p + sumDelays (skipn (S i) pts)) * 1000)
              (fst (moveCursorLoop pts (S i) locs (cum + delay p * 1000)))).
    { eapply Forall_impl; [|exact (IH (S i) (cum + delay p * 1000) Hpos)].
      cbv beta. intros t Ht. lra. }
    destruct (truthy point); [|exact Hlater].
    destruct (destructure2 point) as [[py px]|]; [|constructor].
    rewrite fst_consTimer. constructor; [|exact Hlater].
    cbn [timeout]. lra.
Qed.

(** The loop over the locations up to and including one located point. *)
Lemma loop_reaches_located pts l1 loc l2 p point py px :
  snd (moveCursorLoop pts 0 l1 0) = None ->
  nth_error pts (List.length l1) = Some p ->
  pointOf loc = Some point ->
  truthy point = true ->
  destructure2 point = Some (py, px) ->
  let d := delayAfter pts 0 (List.length l1) 0 + delay p * 1000 in
  let later := moveCursorLoop pts (S (List.length l1)) l2 d in
  moveCursorLoop pts 0 (l1 ++ loc :: l2) 0
  = (fst (moveCursorLoop pts 0 l1 0) ++ mkTimer d (mkCursor px py) :: fst later,
     snd later).
Proof.
  intros Hdone Hp Hloc Htruthy Hyx d later.
  rewrite (@loop_app pts l1 (loc :: l2) 0%nat 0 Hdone). simpl (0 + _)%nat.
  rewrite (@loop_round_located pts _ loc l2 _ point p py px Hloc Hp Htruthy Hyx).
  reflexivity.
Qed.

(** The same when the point has no usable location. *)
Lemma loop_reaches_skipped pts l1 loc l2 p point :
  snd (moveCursorLoop pts 0 l1 0) = None ->
  nth_error pts (List.length l1) = Some p ->
  pointOf loc = Some point ->
  truthy point = false ->
  let d := delayAfter pts 0 (List.length l1) 0 + delay p * 1000 in
  let later := moveCursorLoop pts (S (List.length l1)) l2 d in
  moveCursorLoop pts 0 (l1 ++ loc :: l2) 0
  = (fst (moveCursorLoop pts 0 l1 0) ++ fst later, snd later).
Proof.
  intros Hdone Hp Hloc Hfalsy d later.
  rewrite (@loop_app pts l1 (loc :: l2) 0%nat 0 Hdone). simpl (0 + _)%nat.
  rewrite (@loop_round_skipped pts _ loc l2 _ point p Hloc Hp Hfalsy).
  reflexivity.
Qed.





(** C10. A point whose lookup completed without a usable point registers no
    timer, and its delay is still added: the timers of the earlier and of
    the later points are exactly those registered had the point been
    located, at the same delays. *)
Theorem skipped_point_delay_still_counts :
  forall pts l1 loc l2 p point,
    snd (moveCursorLoop pts 0 l1 0) = None ->
    nth_error pts (List.length l1) = Some p ->
    pointOf loc = Some point ->
    truthy point = false ->
    let d := delayAfter pts 0 (List.length l1) 0 + delay p * 1000 in
    let later := moveCursorLoop pts (S (List.length l1)) l2 d in
    moveCursorLoop pts 0 (l1 ++ loc :: l2) 0
    = (fst (moveCursorLoop pts 0 l1 0) ++ fst later, snd later)
    /\ (forall loc' point' py px,
          pointOf loc' = Some point' ->
          truthy point' = true ->
          destructure2 point' = Some (py, px) ->
          moveCursorLoop pts 0 (l1 ++ loc' :: l2) 0
          = (fst (moveCursorLoop pts 0 l1 0)
               ++ mkTimer d (mkCursor px py) :: fst later, snd later)).
Proof.
  intros pts l1 loc l2 p point Hdone Hp Hloc Hfalsy d later. split.
  - apply (@loop_reaches_skipped pts l1 loc l2 p point Hdone Hp Hloc Hfalsy).
  - intros loc' point' py px Hloc' Htruthy Hyx.
    apply (@loop_reaches_located pts l1 loc' l2 p point' py px Hdone Hp Hloc' Htruthy Hyx).
Qed.

End Loop.

(** ** The choreographer *)

Section Choreographer.

Context {C A : Type} `{WsClient C} `{AudioOut A}.

Local Open Scope list_scope.

(** A captured frame is the data URL of the one image drawn. *)
Lemma capture_fulfilled (b : Browser) stream frame :
  fst (captureLastFrame b stream) = Fulfilled frame ->
  captureLastFrame b stream = (Fulfilled frame, [DrawImage stream]).
Proof.
  unfold captureLastFrame.
  destruct (videoTracks stream); [discriminate|].
  destruct (loadedmetadata b stream); [|discriminate].
  destruct (context2d b); [|discriminate].
  simpl. now intros [= ->].
Qed.

(** With a frame, the calls made are the capture and one request per
    point, and the outcome is that of [Promise.all] over the lookups. *)
Lemma locate_with_frame (b : Browser) stream frame pts :
  fst (captureLastFrame b stream) = Fulfilled frame ->
  locate b stream pts
  = (Promise_all (lookups b frame 0 pts),
     DrawImage stream :: lookupRequests frame pts).
Proof.
  intros Hframe. unfold locate, bind.
  rewrite (capture_fulfilled b stream frame Hframe).
  unfold getPointsFromImage.
  destruct (Promise_all (lookups b frame 0 pts)); simpl;
    rewrite ?app_nil_r; reflexivity.
Qed.

(** The handler on a call it processes. *)
Lemma handle_processed (b : Browser) (s : ClippoService C A) call first rest stream :
  functionCalls call = first :: rest ->
  name first = "move_cursor_sequence" ->
  points first <> [] ->
  screenStream s = Some stream ->
  handleMoveCursorInSequence b (Some call) s
  = match locate b stream (points first) with
    | (Fulfilled locations, log) =>
        let (timers, err) := moveCursorLoop (points first) 0 locations 0%Q in
        ((settle err, log), setTimeouts timers s)
    | (Rejected e, log) => ((Rejected e, log), s)
    | (Pending, log) => ((Pending, log), s)
    end.
Proof.
  intros Hcalls Hname Hpoints Hstream.
  unfold handleMoveCursorInSequence.
  rewrite Hcalls, Hname, String.eqb_refl, Hstream.
  destruct (points first) as [|p ps]; [contradiction|reflexivity].
Qed.

(** One lookup that rejects makes [Promise.all] reject. *)
Lemma rejection_found (b : Browser) frame ps : forall k0 k p e,
  nth_error ps k = Some p ->
  lookup b frame (k0 + k) p = Rejected e ->
  exists e', firstRejection (lookups b frame k0 ps) = Some e'.
Proof.
  induction ps as [|q ps IH]; intros k0 k p e Hk Hrej.
  - destruct k; discriminate.
  - destruct k as [|k]; simpl in *.
    + injection Hk as ->. rewrite Nat.add_0_r in Hrej. rewrite Hrej. eauto.
    + destruct (lookup b frame k0 q); eauto.
      * apply (IH (S k0) k p e Hk). now rewrite <- Nat.add_succ_comm in Hrej.
      * apply (IH (S k0) k p e Hk). now rewrite <- Nat.add_succ_comm in Hrej.
Qed.

Lemma lookupFails_rejected (b : Browser) frame k p :
  lookupFails b frame k p -> exists e, lookup b frame k p = Rejected e.
Proof.
  unfold lookupFails, lookup.
  destruct (generateContent b k (imageData frame) (prompt (description p)))
    as [text|e|].
  - intros ->. eauto.
  - eauto.
  - contradiction.
Qed.

Lemma no_capture_in_requests frame pts :
  filter isDrawImage (lookupRequests frame pts) = [].
Proof.
  induction pts as [|p pts IH]; simpl; [reflexivity|exact IH].
Qed.

(** C7. On a processed call whose frame is available, one image is drawn
    from the stream, once, and the request of every point carries the
    image data of that one frame: the calls made are the capture followed
    by one lookup per point, in point order. *)
Theorem one_frame_for_all_points :
  forall (b : Browser) (s : ClippoService C A) call first rest stream frame,
    functionCalls call = first :: rest ->
    name first = "move_cursor_sequence" ->
    points first <> [] ->
    screenStream s = Some stream ->
    fst (captureLastFrame b stream) = Fulfilled frame ->
    let log := snd (fst (handleMoveCursorInSequence b (Some call) s)) in
    log = DrawImage stream
            :: map (fun p => GenerateContent (imageData frame)
                               (prompt (description p))) (points first)
    /\ filter isDrawImage log = [DrawImage stream]
    /\ frame = toDataURL b stream.
Proof.
  intros b s call first rest stream frame Hcalls Hname Hpoints Hstream Hframe log.
  assert (Hlog : log = DrawImage stream :: lookupRequests frame (points first)).
  { unfold log.
    rewrite (handle_processed b s call first rest stream Hcalls Hname Hpoints Hstream).
    rewrite (locate_with_frame b stream frame (points first) Hframe).
    destruct (Promise_all (lookups b frame 0 (points first)))
      as [locations|e|]; try reflexivity.
    now destruct (moveCursorLoop (points first) 0 locations 0%Q). }
  split; [exact Hlog|]. split.
  - rewrite Hlog. simpl. now rewrite no_capture_in_requests.
  - generalize (capture_fulfilled b stream frame Hframe).
    unfold captureLastFrame.
    destruct (videoTracks stream); [discriminate|].
    destruct (loadedmetadata b stream); [|discriminate].
    destruct (context2d b); [|discriminate].
    now intros [= ->].
Qed.

(** C9. Only [functionCalls[0]] is looked at: the calls after it change
    nothing; with no call at all, or with a first call of another name,
    the handler returns at once, makes no call and leaves the service, its
    timers included, as it was, also when a later call is named
    [move_cursor_sequence]. *)
Theorem only_first_call_examined :
  forall (b : Browser) (s : ClippoService C A) first rest,
    handleMoveCursorInSequence b (Some (mkToolCall (first :: rest))) s
    = handleMoveCursorInSequence b (Some (mkToolCall [first])) s
    /\ (name first <> "move_cursor_sequence" ->
        handleMoveCursorInSequence b (Some (mkToolCall (first :: rest))) s
        = ((Fulfilled tt, []), s))
    /\ handleMoveCursorInSequence b (Some (mkToolCall [])) s
       = ((Fulfilled tt, []), s).
Proof.
  intros b s first rest. split; [reflexivity|]. split; [|reflexivity].
  intros Hname. unfold handleMoveCursorInSequence. simpl.
  destruct (String.eqb_spec (name first) "move_cursor_sequence") as [Heq|_].
  - contradiction.
  - reflexivity.
Qed.

(** C1. A tool call whose first function call is [move_cursor_sequence]
    with the points "pad" (delay 0) and "button" (delay 3), handled with a
    frame captured and the two lookups resolving to the points [100, 200]
    and [400, 500] ([row, col]), registers exactly two timers: at 0 ms the
    callback for {x: 200, y: 100}, at 3000 ms the callback for
    {x: 500, y: 400}. When they expire, [raiseMoveCursorEvent] pushes
    {x: 200, y: 100} and then {x: 500, y: 400} to the cursor position
    stream, these two values and no other, and the second is the value
    the stream is left with. *)
Theorem pad_button_round_trip :
  forall (b : Browser) (s : ClippoService C A) stream frame rest vpad vbutton,
    screenStream s = Some stream ->
    pendingTimers s = [] ->
    fst (captureLastFrame b stream) = Fulfilled frame ->
    lookup b frame 0 pad = Fulfilled vpad ->
    pointOf vpad = Some at_100_200 ->
    lookup b frame 1 button = Fulfilled vbutton ->
    pointOf vbutton = Some at_400_500 ->
    let call := mkToolCall (mkCall "move_cursor_sequence" [pad; button] :: rest) in
    let s' := snd (handleMoveCursorInSequence b (Some call) s) in
    fst (fst (handleMoveCursorInSequence b (Some call) s)) = Fulfilled tt
    /\ pendingTimers s'
       = [mkTimer 0%Q (mkCursor (JNum 200%Q) (JNum 100%Q));
          mkTimer 3000%Q (mkCursor (JNum 500%Q) (JNum 400%Q))]
    /\ fst (runTimers s')
       = [mkCursor (JNum 200%Q) (JNum 100%Q); mkCursor (JNum 500%Q) (JNum 400%Q)]
    /\ cursorPositionSubject (snd (runTimers s'))
       = Some (mkCursor (JNum 500%Q) (JNum 400%Q)).
Proof.
  intros b s stream frame rest vpad vbutton Hstream Hnone Hframe
    Hpad Hpadpoint Hbutton Hbuttonpoint call s'.
  assert (Hrun : handleMoveCursorInSequence b (Some call) s
    = ((Fulfilled tt, DrawImage stream :: lookupRequests frame [pad; button]),
       setTimeouts
         [mkTimer 0%Q (mkCursor (JNum 200%Q) (JNum 100%Q));
          mkTimer 3000%Q (mkCursor (JNum 500%Q) (JNum 400%Q))] s)).
  { rewrite (handle_processed b s call _ rest stream eq_refl eq_refl
               ltac:(discriminate) Hstream).
    cbn [points].
    rewrite (locate_with_frame b stream frame [pad; button] Hframe).
    cbn [lookups]. rewrite Hpad, Hbutton.
    cbn [Promise_all firstRejection allValues moveCursorLoop].
    rewrite Hpadpoint, Hbuttonpoint.
    reflexivity. }
  unfold s'. rewrite Hrun. cbn [fst snd].
  split; [reflexivity|].
  unfold runTimers, setTimeouts. cbn [pendingTimers set_pendingTimers].
  rewrite Hnone. repeat split; reflexivity.
Qed.

(** C2, as the code has it. When the lookup of one point of a processed
    call fails (the model call rejects, or its text does not parse), the
    handler's promise rejects after the capture and all the lookups were
    issued, and the service is left as it was: no timer is registered, for
    the failed point or for any other. *)
Theorem failed_lookup_abandons_sequence :
  forall (b : Browser) (s : ClippoService C A) call first rest stream frame k p,
    functionCalls call = first :: rest ->
    name first = "move_cursor_sequence" ->
    screenStream s = Some stream ->
    fst (captureLastFrame b stream) = Fulfilled frame ->
    nth_error (points first) k = Some p ->
    lookupFails b frame k p ->
    exists e,
      handleMoveCursorInSequence b (Some call) s
      = ((Rejected e, DrawImage stream :: lookupRequests frame (points first)), s).
Proof.
  intros b s call first rest stream frame k p Hcalls Hname Hstream Hframe Hk Hfails.
  assert (Hpoints : points first <> []).
  { intros Hnil. rewrite Hnil in Hk. destruct k; discriminate. }
  destruct (lookupFails_rejected b frame k p Hfails) as [e He].
  destruct (rejection_found b frame (points first) 0 k p e Hk He) as [e' He'].
  exists e'.
  rewrite (handle_processed b s call first rest stream Hcalls Hname Hpoints Hstream).
  rewrite (locate_with_frame b stream frame (points first) Hframe).
  unfold Promise_all. now rewrite He'.
Qed.

End Choreographer.

(** ** Interruption *)

Section Interruption.

Context {C A : Type} `{WsClient C} `{AudioOut A}.

Local Open Scope list_scope.

Lemma insertTimer_In t u ts : In u (insertTimer t ts) <-> u = t \/ In u ts.
Proof.
  induction ts as [|v ts IH]; cbn [insertTimer In].
  - intuition.
  - destruct (effectiveDelay (timeout v) <=? effectiveDelay (timeout t))%Z;
      cbn [In]; rewrite ?IH; intuition.
Qed.

Lemma fired_In u ts : forall fired,
  In u (fold_left (fun fired t => insertTimer t fired) ts fired)
  <-> In u ts \/ In u fired.
Proof.
  induction ts as [|t ts IH]; intros fired; simpl.
  - intuition.
  - rewrite IH, insertTimer_In. intuition.
Qed.

(** The callback of a timer pushes the event the timer was registered
    for. *)
Lemma fire_pushes (s : ClippoService C A) t :
  cursorPositionSubject (fire t s) = Some (event t).
Proof.
  unfold fire, raiseMoveCursorEvent. cbn [cursorPositionSubject set_cursorPositionSubject].
  now destruct (event t).
Qed.

(** What the stream carries when callbacks run is what they were
    registered for, one value per callback. *)
Lemma fireAll_seen fired : forall s : ClippoService C A,
  fst (fireAll fired s) = map event fired.
Proof.
  induction fired as [|t fired IH]; intros s; cbn [fireAll map fst].
  - reflexivity.
  - unfold seenAfter. now rewrite fire_pushes, IH.
Qed.

Lemma runTimers_seen (s : ClippoService C A) :
  fst (runTimers s) = map event (firingOrder (pendingTimers s)).
Proof.
  unfold runTimers. cbn [fst]. apply fireAll_seen.
Qed.

(** Every pending timer fires. *)
Lemma runTimers_fires_all (s : ClippoService C A) t :
  In t (pendingTimers s) -> In (event t) (fst (runTimers s)).
Proof.
  intros Hin. rewrite runTimers_seen. unfold firingOrder.
  apply in_map. apply fired_In. now left.
Qed.

(** Stopping the audio streamer and handling a tool call do not see each
    other. *)
Lemma handle_stop_commute (b : Browser) (s : ClippoService C A) toolCall :
  handleMoveCursorInSequence b toolCall (stopAudioStreamer s)
  = (fst (handleMoveCursorInSequence b toolCall s),
     stopAudioStreamer (snd (handleMoveCursorInSequence b toolCall s))).
Proof.
  assert (Hscreen : screenStream (stopAudioStreamer s) = screenStream s).
  { unfold stopAudioStreamer. now destruct (audioStreamer s). }
  assert (Htimers : forall ts,
    setTimeouts ts (stopAudioStreamer s) = stopAudioStreamer (setTimeouts ts s)).
  { intros ts. unfold stopAudioStreamer, setTimeouts. simpl.
    now destruct (audioStreamer s). }
  unfold handleMoveCursorInSequence. rewrite Hscreen.
  destruct toolCall as [call|]; [|reflexivity].
  destruct (functionCalls call) as [|first rest]; [reflexivity|].
  destruct (String.eqb (name first) "move_cursor_sequence"); [|reflexivity].
  destruct (points first) as [|p ps]; [reflexivity|].
  destruct (screenStream s) as [stream|]; [|reflexivity].
  destruct (locate b stream (p :: ps)) as [[locations|e|] log]; try reflexivity.
  destruct (moveCursorLoop (p :: ps) 0 locations 0%Q) as [timers err].
  simpl. now rewrite Htimers.
Qed.

(** C8. The listener of the interrupted event stops the audio streamer, if
    there is one, and does nothing else: it makes no call, the pending
    cursor timers are the same and every one of them still fires with its
    event, a tool call still being located still registers the same timers
    afterwards, and the connected state, the content stream and the tool
    stream keep their values. *)
Theorem interruption_only_stops_audio :
  forall (b : Browser) (s : ClippoService C A),
    let s' := fst (listener b OnInterrupted s) in
    snd (listener b OnInterrupted s) = []
    /\ audioStreamer s' = option_map audio_stop (audioStreamer s)
    /\ pendingTimers s' = pendingTimers s
    /\ fst (runTimers s') = fst (runTimers s)
    /\ (forall t, In t (pendingTimers s) -> In (event t) (fst (runTimers s')))
    /\ (forall toolCall,
          pendingTimers (snd (handleMoveCursorInSequence b toolCall s'))
          = pendingTimers (snd (handleMoveCursorInSequence b toolCall s)))
    /\ isConnected s' = isConnected s
    /\ connectedSubject s' = connectedSubject s
    /\ contentSubject s' = contentSubject s
    /\ toolSubject s' = toolSubject s
    /\ cursorPositionSubject s' = cursorPositionSubject s
    /\ wsClient s' = wsClient s.
Proof.
  intros b s s'.
  assert (Hs' : s' = stopAudioStreamer s) by reflexivity.
  assert (Htimers : pendingTimers s' = pendingTimers s).
  { rewrite Hs'. unfold stopAudioStreamer. now destruct (audioStreamer s). }
  assert (Hfired : fst (runTimers s') = fst (runTimers s)).
  { now rewrite !runTimers_seen, Htimers. }
  split; [reflexivity|].
  split.
  { rewrite Hs'. unfold stopAudioStreamer.
    destruct (audioStreamer s) eqn:Haudio; simpl; [reflexivity|exact Haudio]. }
  split; [exact Htimers|].
  split; [exact Hfired|].
  split.
  { intros t Hin. rewrite Hfired. now apply runTimers_fires_all. }
  split.
  { intros toolCall. rewrite Hs', handle_stop_commute. simpl.
    unfold stopAudioStreamer.
    now destruct (audioStreamer (snd (handleMoveCursorInSequence b toolCall s))). }
  rewrite Hs'. unfold stopAudioStreamer.
  destruct (audioStreamer s); repeat split; reflexivity.
Qed.

End Interruption.

(** ** The session *)

Section Session.

Import Protocol.

Context {A : Type} `{AudioOut A}.

Local Open Scope list_scope.

Variable config : LiveConfig.

Lemma start_reconnects (b : Browser) (s : ClippoService Client A) :
  wsClient (snd (start config b s)) = reconnect config (wsClient s).
Proof.
  unfold start, reconnect. simpl.
  destruct (client_connect config (client_disconnect (wsClient s)))
    as [[u|e|] c]; simpl; [|reflexivity|reflexivity].
  destruct (getDisplayMedia b); reflexivity.
Qed.

Lemma connect_reconnects (s : ClippoService Client A) :
  wsClient (snd (connect config s)) = reconnect config (wsClient s).
Proof.
  unfold connect, reconnect. simpl.
  now destruct (client_connect config (client_disconnect (wsClient s)))
    as [[u|e|] c].
Qed.

(** [connect] of the earlier service does not write [isConnected]. *)
Lemma connect_keeps_isConnected (s : ClippoService Client A) :
  isConnected (snd (connect config s)) = isConnected s.
Proof.
  unfold connect. cbn [wsClient set_wsClient].
  now destruct (ws_connect config (ws_disconnect (wsClient s))) as [[u|e|] c].
Qed.

Lemma client_disconnect_closed (c : Client) :
  tidy c ->
  openTransports (client_disconnect c) = []
  /\ nextTransport (client_disconnect c) = nextTransport c
  /\ opens (client_disconnect c) = opens c
  /\ Forall (fun t => t < nextTransport c) (closedTransports (client_disconnect c))
  /\ (forall t, session c = Active t -> In t (closedTransports (client_disconnect c)))
  /\ (forall t, In t (closedTransports c) -> In t (closedTransports (client_disconnect c))).
Proof.
  intros (Hopen & Hbound & Hclosed). unfold client_disconnect.
  destruct (session c) as [| |t| | |] eqn:Hs; simpl;
    try (repeat split; try assumption; try discriminate; auto).
  - rewrite Hopen. simpl. now rewrite Nat.eqb_refl.
  - constructor; [|assumption]. rewrite Hopen in Hbound. now inversion Hbound.
  - intros u [= ->]. now left.
Qed.

(** Reconnecting a tidy client whose next transport opens gives an active
    session over that transport, the only open one; the transport of the
    session before is closed. *)
Lemma reconnect_active (c : Client) :
  tidy c ->
  opens c (nextTransport c) = true ->
  session (reconnect config c) = Active (nextTransport c)
  /\ openTransports (reconnect config c) = [nextTransport c]
  /\ nextTransport (reconnect config c) = S (nextTransport c)
  /\ opens (reconnect config c) = opens c
  /\ tidy (reconnect config c)
  /\ (forall t, session c = Active t -> In t (closedTransports (reconnect config c))).
Proof.
  intros Htidy Hopens.
  destruct (client_disconnect_closed c Htidy)
    as (Hnone & Hnext & Hsame & Hbound & Hold & _).
  unfold reconnect, client_connect.
  rewrite Hsame, Hnext, Hopens. simpl. rewrite Hnone.
  repeat split; try reflexivity.
  - simpl. constructor; [lia|constructor].
  - simpl. eapply Forall_impl; [|exact Hbound]. simpl. intros t Ht. lia.
  - exact Hold.
Qed.

Lemma start_connected (b : Browser) (s : ClippoService Client A) :
  session (reconnect config (wsClient s)) = Active (nextTransport (wsClient s)) ->
  opens (wsClient s) (nextTransport (wsClient s)) = true ->
  tidy (wsClient s) ->
  isConnected (snd (start config b s)) = true.
Proof.
  intros _ Hopens Htidy.
  destruct (client_disconnect_closed (wsClient s) Htidy)
    as (_ & Hnext & Hsame & _).
  unfold start. simpl. unfold client_connect.
  rewrite Hsame, Hnext, Hopens.
  destruct (getDisplayMedia b); reflexivity.
Qed.

(** Without the teardown the earlier transport would stay open: opening a
    second session on an active client leaves two transports open. *)
Lemma connect_alone_leaks (opening : nat -> bool) :
  opening 0 = true -> opening 1 = true ->
  openTransports
    (snd (client_connect config (snd (client_connect config (fresh opening)))))
  = [1; 0].
Proof.
  intros H0 H1. unfold client_connect, fresh. simpl. rewrite H0. simpl.
  now rewrite H1.
Qed.

(** C6. Starting twice in a row, the second call made when the first has
    settled, on a client whose transports open: the second start hands the
    client to [connect] only after [disconnect]; after it the session is
    active over the second transport, which is the only open one, the
    first transport is closed, and the service is connected. The same
    holds of the client for [connect] of the earlier service that connects
    without capturing; that service announces the connection on
    [connected$] and leaves its field [isConnected] as it was. *)
Theorem reconnect_leaves_one_session :
  forall (b : Browser) (s : ClippoService Client A),
    let t1 := nextTransport (wsClient s) in
    let t2 := S t1 in
    tidy (wsClient s) ->
    opens (wsClient s) t1 = true ->
    opens (wsClient s) t2 = true ->
    (let s1 := snd (start config b s) in
     let s2 := snd (start config b s1) in
     session (wsClient s1) = Active t1
     /\ openTransports (wsClient s1) = [t1]
     /\ wsClient s2
        = snd (client_connect config (client_disconnect (wsClient s1)))
     /\ session (wsClient s2) = Active t2
     /\ openTransports (wsClient s2) = [t2]
     /\ In t1 (closedTransports (wsClient s2))
     /\ isConnected s2 = true)
    /\ (let s1 := snd (connect config s) in
        let s2 := snd (connect config s1) in
        session (wsClient s1) = Active t1
        /\ openTransports (wsClient s1) = [t1]
        /\ wsClient s2
           = snd (client_connect config (client_disconnect (wsClient s1)))
        /\ session (wsClient s2) = Active t2
        /\ openTransports (wsClient s2) = [t2]
        /\ In t1 (closedTransports (wsClient s2))
        /\ connectedSubject s2 = true
        /\ isConnected s2 = isConnected s).
Proof.
  intros b s t1 t2 Htidy Hopen1 Hopen2.
  destruct (reconnect_active (wsClient s) Htidy Hopen1)
    as (Hs1 & Ho1 & Hn1 & Hsame1 & Htidy1 & _).
  assert (Hopen2' : opens (reconnect config (wsClient s))
                      (nextTransport (reconnect config (wsClient s))) = true).
  { now rewrite Hsame1, Hn1. }
  destruct (reconnect_active (reconnect config (wsClient s)) Htidy1 Hopen2')
    as (Hs2 & Ho2 & _ & _ & _ & Hclosed).
  rewrite Hn1 in Hs2, Ho2.
  split.
  - intros s1 s2.
    assert (Hc1 : wsClient s1 = reconnect config (wsClient s))
      by apply start_reconnects.
    assert (Hc2 : wsClient s2 = reconnect config (wsClient s1))
      by apply start_reconnects.
    rewrite Hc2, Hc1.
    repeat split; try assumption; try reflexivity.
    + now apply Hclosed.
    + unfold s2. apply start_connected; rewrite Hc1.
      * now rewrite Hn1.
      * exact Hopen2'.
      * exact Htidy1.
  - intros s1 s2.
    assert (Hc1 : wsClient s1 = reconnect config (wsClient s))
      by apply connect_reconnects.
    assert (Hc2 : wsClient s2 = reconnect config (wsClient s1))
      by apply connect_reconnects.
    rewrite Hc2, Hc1.
    repeat split; try assumption; try reflexivity.
    + now apply Hclosed.
    + unfold s2, connect. simpl. rewrite Hc1.
      destruct (client_disconnect_closed _ Htidy1) as (_ & Hnext & Hsame & _).
      unfold client_connect. rewrite Hsame, Hnext, Hopen2'. reflexivity.
    + unfold s2, s1. now rewrite !connect_keeps_isConnected.
Qed.

Lemma set_wsClient_same (s : ClippoService Client A) :
  set_wsClient (wsClient s) s = s.
Proof. now destruct s. Qed.

Lemma inactive_session (c : Client) :
  isActive c = false -> forall t, session c <> Active t.
Proof.
  unfold isActive. intros Hc t Ht. rewrite Ht in Hc. discriminate.
Qed.

(** C3. Whatever the chunks, [sendRealtimeInput] on a session that is not
    active fails with the not-connected error, and the service, its client
    and what was written to the transports are as before. *)
Theorem realtime_input_requires_active_session :
  forall (chunks : list GenerativeContentBlob) (s : ClippoService Client A),
    isActive (wsClient s) = false ->
    sendRealtimeInput chunks s = (Rejected NotConnected, s)
    /\ written (wsClient (snd (sendRealtimeInput chunks s))) = written (wsClient s).
Proof.
  intros chunks s Hidle.
  assert (Hsend : sendRealtimeInput chunks s = (Rejected NotConnected, s)).
  { unfold sendRealtimeInput. simpl. unfold client_sendRealtimeInput.
    unfold isActive in Hidle.
    destruct (session (wsClient s)); try discriminate;
      simpl; now rewrite set_wsClient_same. }
  split; [exact Hsend|]. now rewrite Hsend.
Qed.

(** C5, as the code has it. Not connected, [send] fails with the
    not-connected error and leaves the service as it was, for every text.
    Connected, a non-empty text is handed to the client as one text part:
    over an active session it is written as a single client-content
    message and the call does not throw, otherwise the client's
    not-connected error comes back and nothing is written. Connected, the
    empty text is not sent at all: the call returns normally and the
    client is left alone. *)
Theorem send_text_guarded :
  forall (message : string) (s : ClippoService Client A),
    (isConnected s = false -> send message s = (Rejected NotConnected, s))
    /\ (forall t,
          isConnected s = true ->
          message <> "" ->
          session (wsClient s) = Active t ->
          fst (send message s) = Fulfilled tt
          /\ written (wsClient (snd (send message s)))
             = written (wsClient s) ++ [(t, ClientContent (TextPart message))]
          /\ session (wsClient (snd (send message s))) = Active t)
    /\ (isConnected s = true ->
         message <> "" ->
         isActive (wsClient s) = false ->
         fst (send message s) = Rejected NotConnected
         /\ wsClient (snd (send message s)) = wsClient s)
    /\ (isConnected s = true ->
         message = "" ->
         send message s = (Fulfilled tt, set_streamedMessage "" s)).
Proof.
  intros message s.
  assert (Hsend : isConnected s = true -> message <> "" ->
    send message s
    = (settle (fst (client_send (TextPart message) (wsClient s))),
       set_wsClient (snd (client_send (TextPart message) (wsClient s)))
         (set_streamedMessage "" s))).
  { intros Hon Htext. unfold send. rewrite Hon. simpl.
    destruct (String.eqb_spec message "") as [Hempty|_]; [contradiction|].
    now destruct (client_send (TextPart message) (wsClient s)). }
  split; [|split; [|split]].
  - intros Hoff. unfold send. now rewrite Hoff.
  - intros t Hon Htext Hactive. rewrite (Hsend Hon Htext).
    unfold client_send. rewrite Hactive. simpl. now repeat split.
  - intros Hon Htext Hidle. rewrite (Hsend Hon Htext).
    unfold client_send, isActive in *.
    destruct (session (wsClient s)); try discriminate; now split.
  - intros Hon ->. unfold send. now rewrite Hon.
Qed.

End Session.

(** ** Data URLs *)

Section DataUrl.

Local Open Scope string_scope.

Lemma prefix_empty s : String.prefix "" s = true.
Proof. now destruct s. Qed.

Lemma length_append_string s : forall t,
  String.length (s ++ t) = String.length s + String.length t.
Proof.
  induction s as [|c s IH]; intros t; simpl; [reflexivity|now rewrite IH].
Qed.

Lemma append_assoc_string s : forall t u, (s ++ t) ++ u = s ++ t ++ u.
Proof.
  induction s as [|c s IH]; intros t u; simpl; [reflexivity|now rewrite IH].
Qed.

Lemma index_comma_cons c s :
  String.index 0 "," (String c s)
  = match ascii_dec "," c with
    | left _ => Some 0
    | right _ =>
        match String.index 0 "," s with
        | Some n => Some (S n)
        | None => None
        end
    end.
Proof.
  cbn [String.index String.prefix].
  destruct (ascii_dec "," c); [now rewrite prefix_empty|reflexivity].
Qed.

Lemma index_first_comma before : forall rest,
  commaFree before ->
  String.index 0 "," (before ++ "," ++ rest) = Some (String.length before).
Proof.
  unfold commaFree.
  induction before as [|c before IH]; intros rest Hfree.
  - change ("" ++ "," ++ rest) with (String "," rest).
    rewrite index_comma_cons.
    destruct (ascii_dec "," ","); [reflexivity|congruence].
  - change (String c before ++ "," ++ rest)
      with (String c (before ++ "," ++ rest)).
    cbn [String.length]. rewrite index_comma_cons in *.
    destruct (ascii_dec "," c) as [Heq|Hneq]; [discriminate|].
    destruct (String.index 0 "," before) as [n|] eqn:Hidx; [discriminate|].
    now rewrite (IH rest eq_refl).
Qed.

Lemma substring_all s : String.substring 0 (String.length s) s = s.
Proof.
  induction s as [|c s IH]; simpl; [reflexivity|now rewrite IH].
Qed.

Lemma substring_after before : forall s,
  String.substring (String.length before)
    (String.length (before ++ s) - String.length before) (before ++ s) = s.
Proof.
  induction before as [|c before IH]; intros s; simpl.
  - rewrite Nat.sub_0_r. apply substring_all.
  - apply IH.
Qed.

(** What follows the first comma. *)
Lemma sliceAfter_first_comma before rest :
  commaFree before ->
  sliceAfter "," (before ++ "," ++ rest) = rest.
Proof.
  intros Hfree. unfold sliceAfter.
  rewrite (index_first_comma before rest Hfree).
  replace (before ++ "," ++ rest) with ((before ++ ",") ++ rest)
    by apply append_assoc_string.
  replace (S (String.length before)) with (String.length (before ++ ","))
    by (rewrite length_append_string; simpl; lia).
  apply substring_after.
Qed.

Lemma sliceAfter_no_comma s : commaFree s -> sliceAfter "," s = s.
Proof.
  unfold commaFree, sliceAfter. now intros ->.
Qed.

Lemma commaFree_append a : forall b,
  commaFree a -> commaFree b -> commaFree (a ++ b).
Proof.
  unfold commaFree.
  induction a as [|c a IH]; intros b Ha Hb.
  - exact Hb.
  - change (String c a ++ b) with (String c (a ++ b)).
    rewrite index_comma_cons in *.
    destruct (ascii_dec "," c); [discriminate|].
    destruct (String.index 0 "," a) eqn:Hidx; [discriminate|].
    now rewrite (IH b eq_refl Hb).
Qed.

Lemma prefix_append s : forall t, String.prefix s (s ++ t) = true.
Proof.
  induction s as [|c s IH]; intros t.
  - apply prefix_empty.
  - cbn [append String.prefix].
    destruct (ascii_dec c c); [apply IH|congruence].
Qed.

Lemma includes_prefix c s t : includes (String c s) (String c s ++ t) = true.
Proof.
  unfold includes.
  change (String c s ++ t) with (String c (s ++ t)).
  cbn [String.index].
  change (String c (s ++ t)) with (String c s ++ t).
  now rewrite prefix_append.
Qed.

(** X1. A frame given as a data URL, the text "data:image" followed by a
    media type without comma, a comma and the payload, is sent to the
    model as the payload alone; a frame without any comma, such as bare
    base64 data, is sent as it is. *)
Theorem imageData_strips_header :
  (forall mediaType payload,
     commaFree mediaType ->
     imageData ("data:image" ++ mediaType ++ "," ++ payload) = payload)
  /\ (forall base64Image, commaFree base64Image -> imageData base64Image = base64Image).
Proof.
  split.
  - intros mediaType payload Hfree. unfold imageData.
    rewrite (includes_prefix "d" "ata:image" (mediaType ++ "," ++ payload)).
    rewrite <- append_assoc_string.
    apply sliceAfter_first_comma.
    apply commaFree_append; [reflexivity|exact Hfree].
  - intros base64Image Hfree. unfold imageData.
    rewrite (sliceAfter_no_comma base64Image Hfree).
    now destruct (includes "data:image" base64Image).
Qed.

End DataUrl.

(** ** More on the choreographer *)

Section ChoreographerMore.

Context {C A : Type} `{WsClient C} `{AudioOut A}.

Local Open Scope list_scope.

Lemma promise_all_fulfilled {X : Type} (vs : list X) :
  Promise_all (map (@Fulfilled X) vs) = Fulfilled vs.
Proof.
  unfold Promise_all.
  assert (Hnone : firstRejection (map (@Fulfilled X) vs) = None)
    by (induction vs; simpl; auto).
  assert (Hall : allValues (map (@Fulfilled X) vs) = Some vs).
  { induction vs as [|v vs IH]; simpl; [reflexivity|now rewrite IH]. }
  now rewrite Hnone, Hall.
Qed.

Lemma lookups_length (b : Browser) frame ps : forall k,
  List.length (lookups b frame k ps) = List.length ps.
Proof.
  induction ps as [|p ps IH]; intros k; simpl; [reflexivity|now rewrite IH].
Qed.

(** Through located points the loop does not throw and registers the
    event of each, at the delay accumulated so far. *)
Lemma loop_all_located pts locs : forall i cum,
  (i + List.length locs <= List.length pts)%nat ->
  Forall located locs ->
  snd (moveCursorLoop pts i locs cum) = None
  /\ map (fun t => Some (event t)) (fst (moveCursorLoop pts i locs cum))
     = map eventAt locs
  /\ map timeout (fst (moveCursorLoop pts i locs cum))
     = map (fun k => delayAfter pts i (S k) cum) (seq 0 (List.length locs)).
Proof.
  induction locs as [|loc locs IH]; intros i cum Hlen Hlocated.
  - repeat split.
  - inversion Hlocated as [|? ? Hloc Hrest]; subst.
    simpl in Hlen.
    destruct (nth_error pts i) as [p|] eqn:Hp;
      [|apply nth_error_None in Hp; lia].
    destruct (IH (S i) (cum + delay p * 1000)%Q ltac:(lia) Hrest)
      as (Hdone & Hevents & Htimes).
    unfold located, eventAt in Hloc.
    cbn [moveCursorLoop]. unfold eventAt at 1.
    cbn [map List.length seq]. rewrite <- seq_shift, map_map.
    destruct (pointOf loc) as [point|]; [|congruence].
    rewrite Hp.
    destruct (truthy point); [|congruence].
    destruct (destructure2 point) as [[py px]|]; [|congruence].
    rewrite snd_consTimer, fst_consTimer. cbn [map event timeout].
    rewrite Hevents, Htimes. cbn [delayAfter]. rewrite Hp.
    split; [exact Hdone|split].
    + reflexivity.
    + reflexivity.
Qed.

(** One round on a malformed location throws. *)
Lemma loop_round_malformed pts i loc rest cum :
  malformed loc ->
  moveCursorLoop pts i (loc :: rest) cum = ([], Some TypeError).
Proof.
  intros [Hnone|(point & Hpoint & Htruthy & Hyx)]; cbn [moveCursorLoop].
  - now rewrite Hnone.
  - rewrite Hpoint. destruct (nth_error pts i); [|reflexivity].
    now rewrite Htruthy, Hyx.
Qed.

Lemma sorted_before {X : Type} (R : X -> X -> Prop) (acc : list X) t rest :
  StronglySorted R (acc ++ t :: rest) -> Forall (fun u => R u t) acc.
Proof.
  induction acc as [|a acc IH]; intros Hsorted; [constructor|].
  inversion Hsorted as [|? ? Htail Hhead]; subst.
  constructor; [|now apply IH].
  rewrite Forall_forall in Hhead. apply Hhead. apply in_elt.
Qed.

Lemma insertTimer_last t acc :
  Forall (fun u => notAfter u t) acc -> insertTimer t acc = acc ++ [t].
Proof.
  induction 1 as [|u acc Hu _ IH]; cbn [insertTimer app]; [reflexivity|].
  unfold notAfter in Hu. apply Z.leb_le in Hu. now rewrite Hu, IH.
Qed.

Lemma fired_sorted ts : forall acc,
  StronglySorted notAfter (acc ++ ts) ->
  fold_left (fun fired t => insertTimer t fired) ts acc = acc ++ ts.
Proof.
  induction ts as [|t ts IH]; intros acc Hsorted; simpl.
  - now rewrite app_nil_r.
  - rewrite (insertTimer_last t acc (sorted_before notAfter acc t ts Hsorted)).
    rewrite IH; rewrite <- app_assoc; [reflexivity|exact Hsorted].
Qed.

(** Timers that were registered in order of expiry expire in the order of
    their registration. *)
Lemma firingOrder_sorted ts :
  StronglySorted notAfter ts -> firingOrder ts = ts.
Proof.
  intros Hsorted. apply (fired_sorted ts [] Hsorted).
Qed.

(** Up to 2^31 - 1 milliseconds [setTimeout] takes the whole milliseconds
    of the delay it is given. *)
Lemma effectiveDelay_floor q :
  (0 <= q)%Q -> (q <= 2147483647)%Q -> effectiveDelay q = Qfloor q.
Proof.
  intros Hlow Hhigh.
  assert (Hnum : (0 <= Qnum q)%Z).
  { unfold Qle in Hlow. simpl in Hlow. lia. }
  assert (Htrunc : truncate q = Qfloor q).
  { unfold truncate, Qfloor. destruct q as [n d]. cbn [Qnum Qden] in *.
    apply Z.quot_div_nonneg; lia. }
  assert (Hfloor : (0 <= Qfloor q)%Z).
  { change 0%Z with (Qfloor 0). now apply Qfloor_resp_le. }
  assert (Hceil : (Qfloor q <= 2147483647)%Z).
  { rewrite <- (Qfloor_Z 2147483647). now apply Qfloor_resp_le. }
  unfold effectiveDelay, toInt32. rewrite Htrunc.
  rewrite Z.mod_small by lia. lia.
Qed.

(** Within that range a longer delay does not expire earlier. *)
Lemma effectiveDelay_mono q1 q2 :
  (0 <= q1)%Q -> (q1 <= q2)%Q -> (q2 <= 2147483647)%Q ->
  (effectiveDelay q1 <= effectiveDelay q2)%Z.
Proof.
  intros Hlow Hle Hhigh.
  rewrite (effectiveDelay_floor q1), (effectiveDelay_floor q2);
    try assumption; try (eapply Qle_trans; eassumption).
  now apply Qfloor_resp_le.
Qed.

Lemma sorted_notAfter ts :
  StronglySorted earlier ts ->
  Forall (fun t => (0 <= timeout t)%Q /\ (timeout t <= 2147483647)%Q) ts ->
  StronglySorted notAfter ts.
Proof.
  induction 1 as [|t ts Hsorted IH Hhead]; intros Hrange; [constructor|].
  inversion Hrange as [|? ? [Hlow Hhigh] Hrest]; subst.
  constructor; [now apply IH|].
  rewrite Forall_forall in *. intros u Hu.
  apply effectiveDelay_mono; [exact Hlow|now apply Hhead|now apply Hrest].
Qed.

(** Beyond it the order is lost: of three timers registered at 0 ms,
    1000 ms and 2147484000 ms, the third expires before the second. *)
Lemma delay_beyond_int32_expires_early (e1 e2 e3 : CursorEvent) :
  firingOrder [mkTimer 0%Q e1; mkTimer 1000%Q e2; mkTimer 2147484000%Q e3]
  = [mkTimer 0%Q e1; mkTimer 2147484000%Q e3; mkTimer 1000%Q e2].
Proof. reflexivity. Qed.

(** X2. When every lookup of a processed call gives a location with a
    usable point, the handler's promise is fulfilled and one timer per
    point is registered behind the pending ones, in point order: the timer
    of point [k] raises the event of location [k] at the delay accumulated
    over the points up to and including [k]. *)
Theorem all_located_all_scheduled :
  forall (b : Browser) (s : ClippoService C A) call first rest stream frame locs,
    functionCalls call = first :: rest ->
    name first = "move_cursor_sequence" ->
    points first <> [] ->
    screenStream s = Some stream ->
    fst (captureLastFrame b stream) = Fulfilled frame ->
    lookups b frame 0 (points first) = map (@Fulfilled JsVal) locs ->
    Forall located locs ->
    exists timers,
      handleMoveCursorInSequence b (Some call) s
      = ((Fulfilled tt, DrawImage stream :: lookupRequests frame (points first)),
         setTimeouts timers s)
      /\ List.length timers = List.length (points first)
      /\ map (fun t => Some (event t)) timers = map eventAt locs
      /\ map timeout timers
         = map (fun k => delayAfter (points first) 0 (S k) 0%Q)
             (seq 0 (List.length (points first))).
Proof.
  intros b s call first rest stream frame locs
    Hcalls Hname Hpoints Hstream Hframe Hlookups Hlocated.
  assert (Hlen : List.length locs = List.length (points first)).
  { rewrite <- (lookups_length b frame (points first) 0), Hlookups.
    now rewrite length_map. }
  destruct (loop_all_located (points first) locs 0 0%Q ltac:(simpl; lia) Hlocated)
    as (Hdone & Hevents & Htimes).
  exists (fst (moveCursorLoop (points first) 0 locs 0%Q)).
  split; [|split; [|split]].
  - rewrite (handle_processed b s call first rest stream Hcalls Hname Hpoints Hstream).
    rewrite (locate_with_frame b stream frame (points first) Hframe).
    rewrite Hlookups, promise_all_fulfilled.
    destruct (moveCursorLoop (points first) 0 locs 0%Q) as [timers err].
    simpl in Hdone. now subst err.
  - rewrite <- Hlen, <- (length_map timeout), Htimes, length_map.
    apply length_seq.
  - exact Hevents.
  - now rewrite Htimes, Hlen.
Qed.

(** X3. When the lookups of a processed call all complete and one of the
    locations is malformed (it is [null], or its point is neither an array
    nor a string, as for a reply that is a list of objects), the handler's
    promise rejects with a TypeError: the timers of the points before it
    stay registered and no timer is registered for any later point. *)
Theorem malformed_location_cuts_sequence :
  forall (b : Browser) (s : ClippoService C A) call first rest stream frame
         l1 loc l2,
    functionCalls call = first :: rest ->
    name first = "move_cursor_sequence" ->
    points first <> [] ->
    screenStream s = Some stream ->
    fst (captureLastFrame b stream) = Fulfilled frame ->
    Promise_all (lookups b frame 0 (points first)) = Fulfilled (l1 ++ loc :: l2) ->
    snd (moveCursorLoop (points first) 0 l1 0%Q) = None ->
    malformed loc ->
    handleMoveCursorInSequence b (Some call) s
    = ((Rejected TypeError, DrawImage stream :: lookupRequests frame (points first)),
       setTimeouts (fst (moveCursorLoop (points first) 0 l1 0%Q)) s).
Proof.
  intros b s call first rest stream frame l1 loc l2
    Hcalls Hname Hpoints Hstream Hframe Hall Hdone Hbad.
  rewrite (handle_processed b s call first rest stream Hcalls Hname Hpoints Hstream).
  rewrite (locate_with_frame b stream frame (points first) Hframe), Hall.
  rewrite (loop_app (points first) l1 (loc :: l2) 0 0%Q Hdone).
  rewrite (loop_round_malformed (points first) _ loc l2 _ Hbad).
  cbn [fst snd settle]. now rewrite app_nil_r.
Qed.

(** X4. The handler never asks the model without a frame: either it makes
    no call at all and leaves the service as it was, or it has drawn one
    frame from the screen stream and its calls are that capture followed
    by one lookup per point of the first function call. *)
Theorem lookups_need_a_frame :
  forall (b : Browser) (s : ClippoService C A) toolCall,
    (snd (fst (handleMoveCursorInSequence b toolCall s)) = []
     /\ snd (handleMoveCursorInSequence b toolCall s) = s)
    \/ (exists call first rest stream,
          toolCall = Some call
          /\ functionCalls call = first :: rest
          /\ screenStream s = Some stream
          /\ fst (captureLastFrame b stream) = Fulfilled (toDataURL b stream)
          /\ snd (fst (handleMoveCursorInSequence b toolCall s))
             = DrawImage stream
                 :: lookupRequests (toDataURL b stream) (points first)).
Proof.
  intros b s toolCall.
  destruct toolCall as [call|]; [|left; now split].
  destruct (functionCalls call) as [|first rest] eqn:Hcalls;
    [left; unfold handleMoveCursorInSequence; rewrite Hcalls; now split|].
  destruct (String.eqb_spec (name first) "move_cursor_sequence") as [Hname|Hname].
  2:{ left. unfold handleMoveCursorInSequence. rewrite Hcalls.
      destruct (String.eqb_spec (name first) "move_cursor_sequence");
        [contradiction|now split]. }
  destruct (points first) as [|p ps] eqn:Hpoints.
  { left. unfold handleMoveCursorInSequence.
    rewrite Hcalls, Hname, String.eqb_refl, Hpoints. now split. }
  destruct (screenStream s) as [stream|] eqn:Hstream.
  2:{ left. unfold handleMoveCursorInSequence.
      rewrite Hcalls, Hname, String.eqb_refl, Hpoints, Hstream. now split. }
  assert (Hne : points first <> []) by (rewrite Hpoints; discriminate).
  rewrite (handle_processed b s call first rest stream Hcalls Hname Hne Hstream).
  destruct (fst (captureLastFrame b stream)) as [frame|e|] eqn:Hframe.
  - right. exists call, first, rest, stream.
    assert (Hurl : frame = toDataURL b stream).
    { revert Hframe. unfold captureLastFrame.
      destruct (videoTracks stream); [discriminate|].
      destruct (loadedmetadata b stream); [|discriminate].
      destruct (context2d b); [|discriminate].
      simpl. congruence. }
    subst frame.
    rewrite (locate_with_frame b stream _ (points first) Hframe), Hpoints.
    repeat split; try reflexivity; try assumption.
    destruct (Promise_all (lookups b (toDataURL b stream) 0 (p :: ps)))
      as [locations|e|]; try reflexivity.
    now destruct (moveCursorLoop (p :: ps) 0 locations 0%Q).
  - left. unfold locate, bind.
    destruct (captureLastFrame b stream) as [[frame|e'|] log] eqn:Hcap;
      try discriminate.
    revert Hcap. unfold captureLastFrame.
    destruct (videoTracks stream); [intros [= <- <-]; now split|].
    destruct (loadedmetadata b stream); [|discriminate].
    destruct (context2d b); [discriminate|intros [= <- <-]; now split].
  - left. unfold locate, bind.
    destruct (captureLastFrame b stream) as [[frame|e'|] log] eqn:Hcap;
      try discriminate.
    revert Hcap. unfold captureLastFrame.
    destruct (videoTracks stream); [discriminate|].
    destruct (loadedmetadata b stream); [|intros [= <-]; now split].
    destruct (context2d b); discriminate.
Qed.

Lemma lookups_nth (b : Browser) frame ps : forall k0 k p,
  nth_error ps k = Some p ->
  nth_error (lookups b frame k0 ps) k = Some (lookup b frame (k0 + k) p).
Proof.
  induction ps as [|q ps IH]; intros k0 k p Hk.
  - destruct k; discriminate.
  - destruct k as [|k]; simpl in *.
    + injection Hk as ->. now rewrite Nat.add_0_r.
    + rewrite (IH (S k0) k p Hk). now rewrite Nat.add_succ_comm.
Qed.

Lemma pending_member {X : Type} (ps : list (Promise X)) : forall k,
  nth_error ps k = Some Pending -> allValues ps = None.
Proof.
  induction ps as [|q ps IH]; intros k Hk.
  - destruct k; discriminate.
  - destruct k as [|k]; simpl in *.
    + now injection Hk as ->.
    + destruct q; try reflexivity. now rewrite (IH k Hk).
Qed.

(** X5. A lookup that never settles holds back the whole sequence: when
    no lookup of a processed call rejects and one stays pending, the
    handler's promise stays pending and no timer is registered, also not
    for the points that were located. *)
Theorem pending_lookup_holds_back_sequence :
  forall (b : Browser) (s : ClippoService C A) call first rest stream frame k p,
    functionCalls call = first :: rest ->
    name first = "move_cursor_sequence" ->
    screenStream s = Some stream ->
    fst (captureLastFrame b stream) = Fulfilled frame ->
    firstRejection (lookups b frame 0 (points first)) = None ->
    nth_error (points first) k = Some p ->
    lookup b frame k p = Pending ->
    handleMoveCursorInSequence b (Some call) s
    = ((Pending, DrawImage stream :: lookupRequests frame (points first)), s).
Proof.
  intros b s call first rest stream frame k p
    Hcalls Hname Hstream Hframe Hnone Hk Hpending.
  assert (Hpoints : points first <> []).
  { intros Hnil. rewrite Hnil in Hk. destruct k; discriminate. }
  rewrite (handle_processed b s call first rest stream Hcalls Hname Hpoints Hstream).
  rewrite (locate_with_frame b stream frame (points first) Hframe).
  unfold Promise_all. rewrite Hnone.
  rewrite (pending_member (lookups b frame 0 (points first)) k); [reflexivity|].
  rewrite (lookups_nth b frame (points first) 0 k p Hk). simpl.
  now rewrite Hpending.
Qed.

Lemma setTimeouts_none (s : ClippoService C A) : setTimeouts [] s = s.
Proof.
  unfold setTimeouts, set_pendingTimers. rewrite app_nil_r. now destruct s.
Qed.

(** What the handler registers: nothing, or what the loop registers over
    the points of the first function call. *)
Lemma handler_timers (b : Browser) (s : ClippoService C A) toolCall :
  exists new,
    snd (handleMoveCursorInSequence b toolCall s) = setTimeouts new s
    /\ (new = []
        \/ exists call first rest locations,
             toolCall = Some call
             /\ functionCalls call = first :: rest
             /\ new = fst (moveCursorLoop (points first) 0 locations 0%Q)).
Proof.
  unfold handleMoveCursorInSequence.
  destruct toolCall as [call|];
    [|exists []; rewrite setTimeouts_none; auto].
  destruct (functionCalls call) as [|first rest] eqn:Hcalls;
    [exists []; rewrite setTimeouts_none; auto|].
  destruct (String.eqb (name first) "move_cursor_sequence");
    [|exists []; rewrite setTimeouts_none; auto].
  destruct (points first) as [|p ps] eqn:Hpoints;
    [exists []; rewrite setTimeouts_none; auto|].
  destruct (screenStream s) as [stream|];
    [|exists []; rewrite setTimeouts_none; auto].
  destruct (locate b stream (p :: ps)) as [[locations|e|] log];
    [|exists []; rewrite setTimeouts_none; auto
     |exists []; rewrite setTimeouts_none; auto].
  destruct (moveCursorLoop (p :: ps) 0 locations 0%Q) as [timers err] eqn:Hloop.
  exists timers. split; [reflexivity|].
  right. exists call, first, rest, locations.
  rewrite Hpoints, Hloop. auto.
Qed.

(** X6. Whatever the tool call, the handler changes nothing of the service
    but the list of pending timers, and to that list it only appends: the
    timers of an earlier sequence stay pending, in front of the new ones,
    and they still fire. *)
Theorem handler_keeps_pending_timers :
  forall (b : Browser) (s : ClippoService C A) toolCall,
    let s' := snd (handleMoveCursorInSequence b toolCall s) in
    (exists new, s' = setTimeouts new s)
    /\ (forall t, In t (pendingTimers s) -> In (event t) (fst (runTimers s'))).
Proof.
  intros b s toolCall s'.
  destruct (handler_timers b s toolCall) as (new & Hs' & _).
  split; [now exists new|].
  intros t Hin. apply runTimers_fires_all.
  unfold s'. rewrite Hs'. simpl. apply in_or_app. now left.
Qed.

(** X7. With non-negative delays that add up to at most 2000000 seconds
    (so that no timer is registered beyond what [setTimeout] takes as a
    delay) and no timer pending before, the events of one tool call reach
    the cursor position stream in point order: the timers expire in the
    order in which the loop registered them. *)
Theorem events_fire_in_point_order :
  forall (b : Browser) (s : ClippoService C A) toolCall,
    pendingTimers s = [] ->
    (forall call first rest,
       toolCall = Some call ->
       functionCalls call = first :: rest ->
       nonNegative (points first)
       /\ (sumDelays (points first) <= 2000000)%Q) ->
    let s' := snd (handleMoveCursorInSequence b toolCall s) in
    fst (runTimers s') = map event (pendingTimers s').
Proof.
  intros b s toolCall Hnone Hpos s'.
  destruct (handler_timers b s toolCall) as (new & Hs' & Hnew).
  unfold s'. rewrite runTimers_seen, Hs'. f_equal.
  unfold setTimeouts. cbn [pendingTimers set_pendingTimers]. rewrite Hnone.
  cbn [app]. apply firingOrder_sorted.
  destruct Hnew as [->|(call & first & rest & locations & Hcall & Hcalls & ->)].
  - constructor.
  - destruct (Hpos call first rest Hcall Hcalls) as [Hnonneg Hsum].
    destruct (loop_sorted (points first) locations 0 0%Q Hnonneg)
      as [Hlow Hsorted].
    apply sorted_notAfter; [exact Hsorted|].
    pose proof (loop_bounded (points first) locations 0 0%Q Hnonneg) as Hhigh.
    cbn [skipn] in Hhigh.
    rewrite Forall_forall in *. intros t Ht.
    specialize (Hlow t Ht). specialize (Hhigh t Ht). cbv beta in Hhigh.
    split; [exact Hlow|]. lra.
Qed.

End ChoreographerMore.

(** ** Starting and stopping *)

Section StartStop.

Context {C A : Type} `{WsClient C} `{AudioOut A}.

Local Open Scope list_scope.

Variable config : LiveConfig.

(** X8. When the connection attempt of [start] rejects, [start] rejects
    with the same error before the screen picker is ever opened; the
    service is marked not connected and its stream, streaming flag, screen
    stream and pending timers are as before. *)
Theorem start_connect_failure :
  forall (b : Browser) (s : ClippoService C A) e,
    fst (ws_connect config (ws_disconnect (wsClient s))) = Rejected e ->
    let s' := snd (start config b s) in
    fst (start config b s) = (Rejected e, [])
    /\ isConnected s' = false
    /\ connectedSubject s' = false
    /\ streamSubject s' = streamSubject s
    /\ screenStream s' = screenStream s
    /\ isStreamingSubject s' = isStreamingSubject s
    /\ pendingTimers s' = pendingTimers s.
Proof.
  intros b s e Hconnect s'. unfold s', start. cbn [wsClient set_wsClient].
  destruct (ws_connect config (ws_disconnect (wsClient s))) as [r c].
  simpl in Hconnect. subst r. repeat split.
Qed.

(** X9. When the connection is made and the screen picker is dismissed,
    [start] resolves to null instead of rejecting: the service stays
    connected, is marked not streaming, and keeps the stream and the
    screen stream it had. *)
Theorem start_picker_dismissed :
  forall (b : Browser) (s : ClippoService C A) u e,
    fst (ws_connect config (ws_disconnect (wsClient s))) = Fulfilled u ->
    getDisplayMedia b = Rejected e ->
    let s' := snd (start config b s) in
    fst (start config b s) = (Fulfilled None, [GetDisplayMedia])
    /\ isConnected s' = true
    /\ connectedSubject s' = true
    /\ isStreamingSubject s' = false
    /\ streamSubject s' = streamSubject s
    /\ screenStream s' = screenStream s.
Proof.
  intros b s u e Hconnect Hpicker s'. unfold s', start.
  cbn [wsClient set_wsClient].
  destruct (ws_connect config (ws_disconnect (wsClient s))) as [r c].
  simpl in Hconnect. subst r. rewrite Hpicker. repeat split.
Qed.



End StartStop.

(** ** What the listeners leave alone *)

Section Listeners.

Context {C A : Type} `{WsClient C} `{AudioOut A}.

Local Open Scope list_scope.

(** X22. No event of the socket other than its close replaces the client,
    ends or changes the capture, changes the connected state, or moves the
    cursor by itself; the pending timers change on a tool call only, and
    the audio streamer on an interruption or on audio only. The close is
    left out: its listener feeds [connected$], and what that sets off is
    decided by the subscribers of the stream, not by the listener. *)
Theorem listeners_frame :
  forall (b : Browser) (ev : WsEvent) (s : ClippoService C A),
    ev <> OnClose ->
    let s' := fst (listener b ev s) in
    wsClient s' = wsClient s
    /\ screenStream s' = screenStream s
    /\ streamSubject s' = streamSubject s
    /\ isStreamingSubject s' = isStreamingSubject s
    /\ cursorPositionSubject s' = cursorPositionSubject s
    /\ isConnected s' = isConnected s
    /\ connectedSubject s' = connectedSubject s
    /\ (pendingTimers s' <> pendingTimers s -> exists data, ev = OnToolcall data)
    /\ (audioStreamer s' <> audioStreamer s ->
        ev = OnInterrupted \/ exists data, ev = OnAudio data).
Proof.
  intros b ev s Hopen s'. unfold s'.
  destruct ev as [| |data|data| | |data]; cbn [listener fst].
  - repeat split; intros Hchanged; now contradiction Hchanged.
  - repeat split; intros Hchanged; now contradiction Hchanged.
  - repeat split; intros Hchanged; now contradiction Hchanged.
  - destruct (handler_timers b (set_toolSubject data s) data) as (new & Hs' & _).
    destruct (handleMoveCursorInSequence b data (set_toolSubject data s))
      as [[r log] s1].
    cbn [fst snd] in *. subst s1.
    repeat split; try (intros Hchanged; now contradiction Hchanged).
    intros _. now exists data.
  - now contradiction Hopen.
  - unfold stopAudioStreamer. destruct (audioStreamer s) eqn:Haudio;
      repeat split; try (intros Hchanged; now contradiction Hchanged);
      intros _; now left.
  - unfold addAudioData. destruct (audioStreamer s) eqn:Haudio;
      repeat split; try (intros Hchanged; now contradiction Hchanged);
      intros _; right; now exists data.
Qed.

End Listeners.

(** ** The chat transcript *)

Section Transcript.

Import AppComponent.

Local Open Scope list_scope.

Lemma nonempty_length s : s <> "" <-> Nat.ltb 0 (String.length s) = true.
Proof.
  destruct s; simpl; split; intros Hs.
  - now contradiction Hs.
  - discriminate.
  - reflexivity.
  - discriminate.
Qed.

Lemma append_nonempty s t : t <> "" -> (s ++ t)%string <> "".
Proof.
  destruct s; simpl; [auto|discriminate].
Qed.

Lemma append_empty_r s : (s ++ "")%string = s.
Proof.
  induction s as [|c s IH]; simpl; [reflexivity|now rewrite IH].
Qed.

(** One model turn with text, on a component that shows [base] followed by
    the message being streamed, if any. *)
Lemma model_turn_extends parts a base :
  firstText parts <> "" ->
  messages a
  = (if String.eqb (streamedMessage a) "" then base
     else base ++ [mkMessage "model" (streamedMessage a)]) ->
  let a' := handleModelTurn parts a in
  streamedMessage a' = (streamedMessage a ++ firstText parts)%string
  /\ messages a' = base ++ [mkMessage "model" (streamedMessage a')]
  /\ isConnected a' = isConnected a
  /\ formMessage a' = formMessage a
  /\ cursorVisible a' = cursorVisible a.
Proof.
  intros Htext Hshown a'. unfold a', handleModelTurn, popStreamed.
  destruct (String.eqb_spec (firstText parts) "") as [|_]; [contradiction|].
  cbn [negb streamedMessage messages isConnected formMessage cursorVisible].
  repeat split. f_equal. rewrite Hshown.
  destruct (String.eqb_spec (streamedMessage a) "") as [Hnone|Hsome].
  - now rewrite Hnone.
  - apply nonempty_length in Hsome. rewrite Hsome. apply removelast_last.
Qed.

Lemma model_turns_extend turns : forall a base,
  Forall (fun parts => firstText parts <> "") turns ->
  messages a
  = (if String.eqb (streamedMessage a) "" then base
     else base ++ [mkMessage "model" (streamedMessage a)]) ->
  let a' := received (modelTurns turns) a in
  streamedMessage a' = (streamedMessage a ++ shownText turns)%string
  /\ messages a'
     = (if String.eqb (streamedMessage a') "" then base
        else base ++ [mkMessage "model" (streamedMessage a')])
  /\ isConnected a' = isConnected a
  /\ formMessage a' = formMessage a
  /\ cursorVisible a' = cursorVisible a.
Proof.
  induction turns as [|parts turns IH]; intros a base Htexts Hshown.
  - cbn. rewrite append_empty_r. repeat split. exact Hshown.
  - inversion Htexts as [|? ? Htext Hrest]; subst.
    destruct (model_turn_extends parts a base Htext Hshown)
      as (Hstreamed & Hmessages & Hconn & Hform & Hcursor).
    assert (Hshown' : messages (handleModelTurn parts a)
      = (if String.eqb (streamedMessage (handleModelTurn parts a)) "" then base
         else base ++ [mkMessage "model" (streamedMessage (handleModelTurn parts a))])).
    { rewrite Hmessages.
      destruct (String.eqb_spec (streamedMessage (handleModelTurn parts a)) "")
        as [Hnone|_]; [|reflexivity].
      rewrite Hstreamed in Hnone.
      now apply (append_nonempty (streamedMessage a)) in Htext. }
    destruct (IH (handleModelTurn parts a) base Hrest Hshown')
      as (Hs & Hm & Hc & Hf & Hv).
    change (received (modelTurns (parts :: turns)) a)
      with (received (modelTurns turns) (handleModelTurn parts a)).
    cbn zeta in *. cbn [shownText fold_right].
    fold (shownText turns).
    split; [|split; [exact Hm|repeat split; congruence]].
    now rewrite Hs, Hstreamed, append_assoc_string.
Qed.

(** X11. While a turn is streamed, the transcript shows one growing model
    message: starting with nothing streamed, after any non-empty sequence
    of model turns whose first part has text, the transcript is the one
    before followed by a single model message, the texts of the first
    parts joined; the text of further parts of a turn is not shown. *)
Theorem streamed_turn_is_one_message :
  forall (a : State) turns,
    streamedMessage a = "" ->
    turns <> [] ->
    Forall (fun parts => firstText parts <> "") turns ->
    let a' := received (modelTurns turns) a in
    streamedMessage a' = shownText turns
    /\ messages a' = messages a ++ [mkMessage "model" (shownText turns)].
Proof.
  intros a turns Hnone Hturns Htexts a'.
  assert (Hshown : messages a
    = (if String.eqb (streamedMessage a) "" then messages a
       else messages a ++ [mkMessage "model" (streamedMessage a)]))
    by now rewrite Hnone.
  destruct (model_turns_extend turns a (messages a) Htexts Hshown)
    as (Hs & Hm & _).
  rewrite Hnone in Hs. cbn [append] in Hs. fold a' in Hs, Hm.
  split; [exact Hs|].
  rewrite Hm, Hs.
  destruct (String.eqb_spec (shownText turns) "") as [Hempty|_]; [|reflexivity].
  destruct turns as [|parts turns]; [contradiction|].
  inversion Htexts as [|? ? Htext _]; subst. cbn in Hempty.
  destruct (firstText parts); [contradiction|discriminate].
Qed.

(** X12. When the turn completes, its text is appended once more and the
    streamed text is cleared: after a streamed turn and the turn-complete
    value the transcript ends with the same model message twice; a
    turn-complete value with nothing streamed appends a model message
    with empty text. *)
Theorem completed_turn_is_shown_twice :
  forall (a : State) turns,
    streamedMessage a = "" ->
    turns <> [] ->
    Forall (fun parts => firstText parts <> "") turns ->
    (let a' := received (modelTurns turns ++ [Some TurnComplete]) a in
     streamedMessage a' = ""
     /\ messages a'
        = messages a ++ [mkMessage "model" (shownText turns);
                          mkMessage "model" (shownText turns)])
    /\ messages (received [Some TurnComplete] a)
       = messages a ++ [mkMessage "model" ""].
Proof.
  intros a turns Hnone Hturns Htexts. split.
  - intros a'.
    destruct (streamed_turn_is_one_message a turns Hnone Hturns Htexts)
      as (Hs & Hm).
    unfold a', received. rewrite fold_left_app. cbn [fold_left handleContent].
    unfold received in Hs, Hm. unfold handleTurnComplete. cbn.
    split; [reflexivity|].
    rewrite Hm, Hs, <- app_assoc. reflexivity.
  - cbn. now rewrite Hnone.
Qed.

(** X13. A model turn whose first part has no text, arriving while a turn
    is streamed, removes the last message without putting one back, and
    the next turn with text removes one more: after the two, the streamed
    message and the message shown before it are gone from the transcript
    and the streamed text, extended, is shown in their place. *)
Theorem textless_turn_drops_a_message :
  forall (a : State) silent parts,
    streamedMessage a <> "" ->
    firstText silent = "" ->
    firstText parts <> "" ->
    let a' := received (modelTurns [silent; parts]) a in
    streamedMessage a' = (streamedMessage a ++ firstText parts)%string
    /\ messages a'
       = removelast (removelast (messages a))
           ++ [mkMessage "model" (streamedMessage a ++ firstText parts)%string].
Proof.
  intros a silent parts Hstreaming Hsilent Htext a'.
  apply nonempty_length in Hstreaming.
  assert (Hfirst : handleModelTurn silent a
    = mkApp (isConnected a) (streamedMessage a) (removelast (messages a))
        (formMessage a) (cursorVisible a)).
  { unfold handleModelTurn, popStreamed. now rewrite Hsilent, Hstreaming. }
  unfold a'.
  change (received (modelTurns [silent; parts]) a)
    with (handleModelTurn parts (handleModelTurn silent a)).
  rewrite Hfirst. unfold handleModelTurn, popStreamed.
  cbn [streamedMessage messages isConnected formMessage cursorVisible].
  destruct (String.eqb_spec (firstText parts) "") as [|_]; [contradiction|].
  rewrite Hstreaming.
  cbn [negb streamedMessage messages]. now split.
Qed.

Lemma prefix_self s : String.prefix s s = true.
Proof.
  rewrite <- (append_empty_r s) at 2. apply prefix_append.
Qed.

(** X14. The earlier subscriber of the content stream never clears the
    streamed text: whatever value arrives, the text streamed so far is a
    prefix of the text afterwards. On the turn-complete value it throws a
    TypeError instead of closing the turn, and the transcript is then no
    longer than before: the final message is not appended. *)
Theorem earlier_subscriber_never_closes_turn :
  (forall data (a : State),
     String.prefix (streamedMessage a)
       (streamedMessage (snd (contentSubscriber data a))) = true)
  /\ (forall a : State,
        fst (contentSubscriber (Some TurnComplete) a) = Some TypeError
        /\ (List.length (messages (snd (contentSubscriber (Some TurnComplete) a)))
            <= List.length (messages a))%nat).
Proof.
  split.
  - intros data a. destruct data as [[parts| |]|]; cbn;
      try apply prefix_self.
    unfold handleModelTurn.
    destruct (negb (String.eqb (firstText parts) "")); cbn;
      [apply prefix_append|apply prefix_self].
  - intros a. split; [reflexivity|]. cbn. unfold popStreamed.
    destruct (Nat.ltb 0 (String.length (streamedMessage a))); [|lia].
    destruct (messages a) as [|m ms] using rev_ind; [simpl; lia|].
    rewrite removelast_last, length_app. simpl. lia.
Qed.

End Transcript.

(** ** Sending from the component and placing the cursor *)

Section Component.

Context {C A : Type} `{WsClient C} `{AudioOut A}.

Local Open Scope list_scope.

Variable trim : string -> string.

(** X15. [send] of the component does not wait for the service: with a
    message that is not empty after trimming and a service that is not
    connected, the user's message is appended to the transcript, the
    streamed text and the form are cleared, and the service is left as it
    was, nothing having been sent. With an empty form, or a message that
    trims to nothing, neither the component nor the service changes. *)
Theorem component_send_shows_unsent_message :
  forall (a : AppComponent.State) (s : ClippoService C A),
    (forall value,
       AppComponent.formMessage a = Some value ->
       trim value <> "" ->
       isConnected s = false ->
       AppComponent.send trim a s
       = (AppComponent.mkApp (AppComponent.isConnected a) ""
            (AppComponent.messages a
               ++ [AppComponent.mkMessage "user" (trim value)])
            None (AppComponent.cursorVisible a),
          s))
    /\ (forall value,
          AppComponent.formMessage a = Some value ->
          trim value = "" ->
          AppComponent.send trim a s = (a, s))
    /\ (AppComponent.formMessage a = None ->
        AppComponent.send trim a s = (a, s)).
Proof.
  intros a s. split; [|split].
  - intros value Hform Htext Hoff. unfold AppComponent.send. rewrite Hform.
    destruct (String.eqb_spec (trim value) "") as [|_]; [contradiction|].
    unfold send. now rewrite Hoff.
  - intros value Hform Htext. unfold AppComponent.send.
    now rewrite Hform, Htext.
  - intros Hform. unfold AppComponent.send. now rewrite Hform.
Qed.

End Component.

Section Cursor.

Import AppComponent.

Local Open Scope Q_scope.

Lemma scaled_within (p size : Q) :
  0 <= p -> p <= 1000 -> 0 <= size ->
  0 <= (p / 1000) * size /\ (p / 1000) * size <= size.
Proof.
  intros Hlow Hhigh Hsize.
  assert (Hunit : 0 <= p / 1000 /\ p / 1000 <= 1).
  { split.
    - apply Qle_shift_div_l; [reflexivity|]. now rewrite Qmult_0_l.
    - apply Qle_shift_div_r; [reflexivity|]. now rewrite Qmult_1_l. }
  destruct Hunit as [H0 H1]. split.
  - now apply Qmult_le_0_compat.
  - rewrite <- (Qmult_1_l size) at 2. now apply Qmult_le_compat_r.
Qed.

(** X16. A position with both coordinates between 0 and 1000 puts the
    cursor element inside the viewport, [left] between 0 and the inner
    width and [top] between 0 and the inner height, and makes the cursor
    visible; when the page has no cursor element, nothing changes and the
    cursor is not made visible. *)
Theorem cursor_stays_in_viewport :
  forall (px py : Q) (d : Document) (a : State),
    (forall cursor,
       aiCursor d = Some cursor ->
       0 <= px -> px <= 1000 -> 0 <= py -> py <= 1000 ->
       0 <= innerWidth d -> 0 <= innerHeight d ->
       exists placed,
         aiCursor (fst (moveCursorToPosition px py d a)) = Some placed
         /\ 0 <= styleLeft placed /\ styleLeft placed <= innerWidth d
         /\ 0 <= styleTop placed /\ styleTop placed <= innerHeight d
         /\ cursorVisible (snd (moveCursorToPosition px py d a)) = true)
    /\ (aiCursor d = None -> moveCursorToPosition px py d a = (d, a)).
Proof.
  intros px py d a. split.
  - intros cursor Hcursor Hx0 Hx1 Hy0 Hy1 Hw Hh.
    unfold moveCursorToPosition. rewrite Hcursor. cbn.
    eexists. split; [reflexivity|]. cbn.
    destruct (scaled_within px (innerWidth d) Hx0 Hx1 Hw).
    destruct (scaled_within py (innerHeight d) Hy0 Hy1 Hh).
    repeat split; assumption.
  - intros Hnone. unfold moveCursorToPosition. now rewrite Hnone.
Qed.

End Cursor.

(** ** Video frames *)

Section VideoFrames.

Context {C A : Type} `{WsClient C} `{AudioOut A}.

Local Open Scope list_scope.

Variable toDataURL : nat -> nat -> string.

(** X17. While the service is streaming, with the video, the canvas and
    its context in place and a video of at least four pixels in one
    direction, [sendVideoFrame] scales the canvas to a quarter of the
    video, and hands the service exactly one chunk of type image/jpeg
    whose data is what follows the first comma of the canvas's data URL,
    the header left out; it arms the next frame, two seconds later, only
    if the component is connected. *)
Theorem video_frame_is_one_jpeg_chunk :
  forall (t : ControlTray.State) (s : ClippoService C A) canvas video header payload,
    isStreamingSubject s = true ->
    ControlTray.renderCanvasRef t = Some canvas ->
    ControlTray.hasContext canvas = true ->
    ControlTray.videoRef t = Some video ->
    let w := Nat.div (ControlTray.videoWidth video) 4 in
    let h := Nat.div (ControlTray.videoHeight video) 4 in
    (0 < w + h)%nat ->
    toDataURL w h = (header ++ "," ++ payload)%string ->
    commaFree header ->
    ControlTray.sendVideoFrame toDataURL t s
    = (None,
       ControlTray.mkTray (ControlTray.isConnected t) (Some video)
         (Some (ControlTray.mkCanvas true w h))
         (if ControlTray.isConnected t
          then ControlTray.frameTimers t ++ [(1000 / (5 # 10))%Q]
          else ControlTray.frameTimers t),
       snd (sendRealtimeInput [mkBlob "image/jpeg" payload] s))
    /\ (1000 / (5 # 10) == 2000)%Q.
Proof.
  intros t s canvas video header payload Hstreaming Hcanvas Hctx Hvideo w h
    Hsize Hurl Hfree.
  split; [|reflexivity].
  unfold ControlTray.sendVideoFrame.
  rewrite Hstreaming, Hcanvas, Hvideo, Hctx. cbn [negb].
  fold w h. apply Nat.ltb_lt in Hsize. rewrite Hsize, Hurl.
  now rewrite (sliceAfter_first_comma header payload Hfree).
Qed.

(** X18. [sendVideoFrame] reaches the service only while it is streaming
    and with a canvas, its context and a video of at least four pixels in
    one direction; and it arms a next frame only while the service is
    streaming and the component connected: once the service stops
    streaming, the frame loop ends. *)
Theorem video_frames_need_streaming :
  forall (t : ControlTray.State) (s : ClippoService C A),
    let r := ControlTray.sendVideoFrame toDataURL t s in
    (snd r <> s ->
     isStreamingSubject s = true
     /\ exists canvas video,
          ControlTray.renderCanvasRef t = Some canvas
          /\ ControlTray.hasContext canvas = true
          /\ ControlTray.videoRef t = Some video
          /\ (4 <= ControlTray.videoWidth video
              \/ 4 <= ControlTray.videoHeight video)%nat)
    /\ (ControlTray.frameTimers (snd (fst r)) <> ControlTray.frameTimers t ->
        isStreamingSubject s = true /\ ControlTray.isConnected t = true).
Proof.
  intros t s r. unfold r, ControlTray.sendVideoFrame.
  destruct (isStreamingSubject s); cbn [negb];
    [|split; intros Hchanged; now contradiction Hchanged].
  destruct (ControlTray.renderCanvasRef t) as [canvas|];
    [|split; intros Hchanged; now contradiction Hchanged].
  destruct (ControlTray.videoRef t) as [video|];
    [|split; intros Hchanged; now contradiction Hchanged].
  destruct (ControlTray.hasContext canvas) eqn:Hctx; cbn [negb];
    [|split; intros Hchanged; now contradiction Hchanged].
  cbn [fst snd ControlTray.frameTimers]. split.
  - intros Hchanged. split; [reflexivity|].
    exists canvas, video. repeat split; try assumption.
    destruct (Nat.ltb_spec 0 (ControlTray.videoWidth video / 4
                              + ControlTray.videoHeight video / 4))
      as [Hsize|_]; [|now contradiction Hchanged].
    destruct (Nat.le_gt_cases 4 (ControlTray.videoWidth video)) as [|Hw];
      [now left|].
    destruct (Nat.le_gt_cases 4 (ControlTray.videoHeight video)) as [|Hh];
      [now right|].
    rewrite (Nat.div_small _ 4 Hw), (Nat.div_small _ 4 Hh) in Hsize. lia.
  - intros Hchanged. split; [reflexivity|].
    destruct (ControlTray.isConnected t); [reflexivity|now contradiction Hchanged].
Qed.

End VideoFrames.

(** ** The screen capture service on its own *)

Section Capture.

Import ScreenCapture.

Local Open Scope list_scope.

Lemma times_ended_stream n : forall st,
  streamSubject (times n handleStreamEnded st)
  = match n with O => streamSubject st | S _ => None end.
Proof.
  induction n as [|n IH]; intros st; [reflexivity|].
  cbn [times]. rewrite IH. now destruct n.
Qed.

(** X19. After [stop] the service holds no stream and is not streaming,
    whatever it held before, so a second [stop] does nothing: stopping
    twice is the same as stopping once. *)
Theorem capture_stop_is_idempotent :
  forall st : State,
    streamSubject (stop st) = None
    /\ (streamSubject st <> None -> isStreamingSubject (stop st) = false)
    /\ stop (stop st) = stop st.
Proof.
  intros st.
  assert (Hnone : streamSubject (stop st) = None).
  { unfold stop. destruct (streamSubject st) eqn:Hstream; [reflexivity|exact Hstream]. }
  split; [exact Hnone|]. split.
  - intros Hsome. unfold stop.
    destruct (streamSubject st); [reflexivity|now contradiction Hsome].
  - unfold stop at 1. now rewrite Hnone.
Qed.

(** Stopping, one after the other, tracks that are each wrapped once. *)
Lemma stop_wrapped_tracks ts : forall st,
  (forall t, In t ts -> count_occ Nat.eq_dec (wrapped st) t = 1) ->
  fold_left (fun st track => trackStop track st) ts st
  = mkState
      (match ts with [] => streamSubject st | _ :: _ => None end)
      (match ts with [] => isStreamingSubject st | _ :: _ => false end)
      (streamLog st ++ repeat None (List.length ts))
      (streamingLog st ++ repeat false (List.length ts))
      (stopped st ++ ts) (wrapped st) (subscribed st).
Proof.
  induction ts as [|t ts IH]; intros st Hwrapped.
  - cbn. rewrite !app_nil_r. now destruct st.
  - cbn [fold_left]. unfold trackStop at 2.
    rewrite (Hwrapped t (or_introl eq_refl)). cbn [times].
    rewrite IH.
    + unfold handleStreamEnded, nextStream, nextStreaming. cbn.
      rewrite <- !app_assoc. cbn. now destruct ts.
    + intros u Hu. cbn. apply Hwrapped. now right.
Qed.

Lemma fresh_tracks_wrapped_once (st : State) stream :
  NoDup (tracks stream) ->
  (forall t, In t (tracks stream) -> ~ In t (wrapped st)) ->
  forall t, In t (tracks stream) ->
    count_occ Nat.eq_dec (wrapped st ++ tracks stream) t = 1.
Proof.
  intros Hnodup Hfresh t Hin.
  rewrite count_occ_app.
  rewrite (proj1 (count_occ_not_In Nat.eq_dec (wrapped st) t) (Hfresh t Hin)).
  now apply NoDup_count_occ'.
Qed.

(** X20. Starting a capture and stopping it again: with the picker giving
    a stream of distinct tracks, [start] resolves to that stream and the
    service holds it and is streaming; [stop] then stops each track once,
    in order, and leaves the service without stream and not streaming.
    Meanwhile [stream$] carried the stream and then null once per track
    and once more, and [isStreaming$] true and then false as often. *)
Theorem capture_start_stop_round_trip :
  forall (st : State) stream,
    subscribed st = true ->
    NoDup (tracks stream) ->
    (forall t, In t (tracks stream) -> ~ In t (wrapped st)) ->
    let started := snd (start (Fulfilled (Some stream)) st) in
    let stopped' := stop started in
    let n := List.length (tracks stream) in
    fst (start (Fulfilled (Some stream)) st) = Fulfilled (Some stream)
    /\ streamSubject started = Some stream
    /\ isStreamingSubject started = true
    /\ streamSubject stopped' = None
    /\ isStreamingSubject stopped' = false
    /\ stopped stopped' = stopped st ++ tracks stream
    /\ streamLog stopped' = streamLog st ++ Some stream :: repeat None (S n)
    /\ streamingLog stopped' = streamingLog st ++ true :: repeat false (S n).
Proof.
  intros st stream Hsub Hnodup Hfresh started stopped' n.
  assert (Hstarted : started
    = mkState (Some stream) true (streamLog st ++ [Some stream])
        (streamingLog st ++ [true]) (stopped st)
        (wrapped st ++ tracks stream) true).
  { unfold started, start, nextStreaming, nextStream. cbn. now rewrite Hsub. }
  assert (Hstop : stopped'
    = nextStreaming false (nextStream None
        (fold_left (fun st track => trackStop track st) (tracks stream) started))).
  { unfold stopped', stop. now rewrite Hstarted. }
  rewrite stop_wrapped_tracks in Hstop.
  2:{ rewrite Hstarted. cbn. now apply fresh_tracks_wrapped_once. }
  rewrite Hstop, Hstarted. unfold nextStreaming, nextStream. cbn.
  fold n. repeat split; try reflexivity.
  - rewrite <- !app_assoc. cbn. f_equal. f_equal.
    change (None :: repeat None n) with (repeat (@None Stream) (S n)).
    now rewrite <- repeat_cons.
  - rewrite <- !app_assoc. cbn. f_equal. f_equal.
    change (false :: repeat false n) with (repeat false (S n)).
    now rewrite <- repeat_cons.
Qed.

(** X21. When the user ends the capture from the browser, the ended event
    of one track makes the service drop the stream and stop streaming
    without stopping any track; a [stop] after that does nothing, so the
    other tracks of the stream are never stopped by the service. *)
Theorem ended_track_leaves_others_running :
  forall (st : State) stream track,
    subscribed st = true ->
    NoDup (tracks stream) ->
    (forall t, In t (tracks stream) -> ~ In t (wrapped st)) ->
    In track (tracks stream) ->
    let started := snd (start (Fulfilled (Some stream)) st) in
    let ended := trackEnded track started in
    streamSubject ended = None
    /\ isStreamingSubject ended = false
    /\ stopped ended = stopped st
    /\ stop ended = ended.
Proof.
  intros st stream track Hsub Hnodup Hfresh Hin started ended.
  assert (Hended : ended
    = mkState None false (streamLog st ++ [Some stream] ++ [None])
        (streamingLog st ++ [true] ++ [false]) (stopped st)
        (wrapped st ++ tracks stream) true).
  { unfold ended, trackEnded, started, start, nextStreaming, nextStream.
    cbn. rewrite Hsub.
    rewrite (fresh_tracks_wrapped_once st stream Hnodup Hfresh track Hin).
    cbn [times]. unfold handleStreamEnded, nextStream, nextStreaming. cbn.
    now rewrite <- !app_assoc. }
  rewrite Hended. repeat split.
Qed.

End Capture.

(** * Runs on the concrete inputs *)

Module Runs.

Import Protocol Audio Demo.

Local Open Scope list_scope.

Lemma pad_button_round_trip_run :
  let s' := snd (handleMoveCursorInSequence browser (Some call) capturing) in
  pendingTimers s'
  = [mkTimer 0%Q (mkCursor (JNum 200%Q) (JNum 100%Q));
     mkTimer 3000%Q (mkCursor (JNum 500%Q) (JNum 400%Q))]
  /\ fst (runTimers s')
     = [mkCursor (JNum 200%Q) (JNum 100%Q); mkCursor (JNum 500%Q) (JNum 400%Q)]
  /\ cursorPositionSubject (snd (runTimers s'))
     = Some (mkCursor (JNum 500%Q) (JNum 400%Q)).
Proof.
  exact (proj2
    (@pad_button_round_trip Client Streamer browser capturing stream frame []
       padReply buttonReply eq_refl eq_refl eq_refl eq_refl eq_refl eq_refl
       eq_refl)).
Defined.

Lemma failed_lookup_abandons_sequence_run :
  exists e,
    handleMoveCursorInSequence padRejects (Some call) capturing
    = ((Rejected e, DrawImage stream :: lookupRequests frame [pad; button]),
       capturing).
Proof.
  exact (@failed_lookup_abandons_sequence Client Streamer padRejects capturing
           call sequence [] stream frame 0 pad eq_refl eq_refl eq_refl eq_refl
           eq_refl I).
Defined.

(** C2, counterexample. With "pad" rejecting and "button" found at
    [400, 500], isolation would leave the timer of "button" registered;
    the handler registers none. *)
Lemma failed_lookup_not_isolated :
  ~ @failureIsolated Client Streamer padRejects capturing call.
Proof.
  intros Hisolated.
  destruct (Hisolated sequence [] stream frame eq_refl eq_refl eq_refl eq_refl
              (ex_intro _ 0 (ex_intro _ pad (conj eq_refl I)))
              1 button buttonReply at_400_500 (JNum 400%Q) (JNum 500%Q)
              eq_refl eq_refl eq_refl eq_refl eq_refl)
    as (t & Hin & _).
  exact Hin.
Qed.

Lemma realtime_input_requires_active_session_run :
  sendRealtimeInput [chunk] initial = (Rejected NotConnected, initial)
  /\ written (wsClient (snd (sendRealtimeInput [chunk] initial)))
     = written (wsClient initial).
Proof.
  exact (@realtime_input_requires_active_session Streamer [chunk] initial eq_refl).
Defined.

Lemma nonNegative_demo : nonNegative [pad; button].
Proof.
  repeat constructor; unfold Qle; simpl; lia.
Defined.




Lemma skipped_point_delay_still_counts_run :
  moveCursorLoop [pad; button] 0 ([] ++ noPoint :: [buttonReply]) 0%Q
  = ([mkTimer 3000%Q (mkCursor (JNum 500%Q) (JNum 400%Q))], None).
Proof.
  exact (proj1 (skipped_point_delay_still_counts [pad; button] [] noPoint
                  [buttonReply] pad JUndefined eq_refl eq_refl eq_refl eq_refl)).
Defined.

Lemma one_frame_for_all_points_run :
  snd (fst (handleMoveCursorInSequence browser (Some call) capturing))
  = [DrawImage stream;
     GenerateContent "AAAA" (prompt "pad");
     GenerateContent "AAAA" (prompt "button")].
Proof.
  exact (proj1
    (@one_frame_for_all_points Client Streamer browser capturing call sequence
       [] stream frame eq_refl eq_refl ltac:(discriminate) eq_refl eq_refl)).
Defined.

Lemma only_first_call_examined_run :
  handleMoveCursorInSequence browser (Some (mkToolCall [search; sequence])) capturing
  = ((Fulfilled tt, []), capturing).
Proof.
  exact (proj1 (proj2
    (@only_first_call_examined Client Streamer browser capturing search
       [sequence])) ltac:(discriminate)).
Defined.

(** C5, counterexample. Connected over an active session, the empty text
    is not written: the transport has seen the setup message and nothing
    else. *)
Lemma empty_text_is_not_sent :
  ~ sendsEveryText "" capturing.
Proof.
  intros [_ Hwrites].
  destruct (Hwrites 0 eq_refl eq_refl) as [_ Hwritten].
  discriminate Hwritten.
Qed.

Lemma send_text_guarded_run :
  send "hello" initial = (Rejected NotConnected, initial)
  /\ written (wsClient (snd (send "hello" capturing)))
     = [(0, Setup config); (0, ClientContent (TextPart "hello"))]
  /\ send "" capturing = (Fulfilled tt, set_streamedMessage "" capturing).
Proof.
  split; [|split].
  - exact (proj1 (@send_text_guarded Streamer "hello" initial) eq_refl).
  - exact (proj1 (proj2 (proj1 (proj2 (@send_text_guarded Streamer "hello" capturing))
             0 eq_refl ltac:(discriminate) eq_refl))).
  - exact (proj2 (proj2 (proj2 (@send_text_guarded Streamer "" capturing)))
             eq_refl eq_refl).
Defined.

Lemma tidy_fresh (opening : nat -> bool) : tidy (fresh opening).
Proof.
  exact (conj eq_refl (conj (Forall_nil _) (Forall_nil _))).
Defined.

Lemma reconnect_leaves_one_session_run :
  (let s1 := snd (start config browser initial) in
   let s2 := snd (start config browser s1) in
   session (wsClient s2) = Active 1
   /\ openTransports (wsClient s2) = [1]
   /\ In 0 (closedTransports (wsClient s2))
   /\ isConnected s2 = true)
  /\ (let s1 := snd (connect config initial) in
      let s2 := snd (connect config s1) in
      session (wsClient s2) = Active 1
      /\ openTransports (wsClient s2) = [1]
      /\ In 0 (closedTransports (wsClient s2))
      /\ connectedSubject s2 = true
      /\ isConnected s2 = false).
Proof.
  destruct (@reconnect_leaves_one_session Streamer config browser initial
              (tidy_fresh _) eq_refl eq_refl)
    as [(_ & _ & _ & Hactive & Hopen & Hclosed & Hconnected)
        (_ & _ & _ & Hactive' & Hopen' & Hclosed' & Hannounced & Hfield)].
  exact (conj (conj Hactive (conj Hopen (conj Hclosed Hconnected)))
           (conj Hactive' (conj Hopen' (conj Hclosed' (conj Hannounced Hfield))))).
Defined.

Lemma interruption_only_stops_audio_run :
  let s := snd (handleMoveCursorInSequence browser (Some call) capturing) in
  let s' := fst (listener browser OnInterrupted s) in
  In (mkCursor (JNum 500%Q) (JNum 400%Q)) (fst (runTimers s')).
Proof.
  intros s s'.
  exact (proj1 (proj2 (proj2 (proj2 (proj2
           (@interruption_only_stops_audio Client Streamer _ browser s)))))
           (mkTimer 3000%Q (mkCursor (JNum 500%Q) (JNum 400%Q)))
           (or_intror (or_introl eq_refl))).
Defined.

End Runs.

(** * Runs on the further inputs *)

Module MoreRuns.

Import Protocol Audio Demo Samples.

Local Open Scope list_scope.

Lemma imageData_strips_header_run :
  imageData "data:image/jpeg;base64,AAAA" = "AAAA".
Proof.
  exact (proj1 imageData_strips_header "/jpeg;base64" "AAAA" eq_refl).
Defined.

Lemma located_replies : Forall located [padReply; buttonReply].
Proof.
  repeat constructor; discriminate.
Defined.

Lemma all_located_all_scheduled_run :
  exists timers,
    handleMoveCursorInSequence browser (Some call) capturing
    = ((Fulfilled tt, DrawImage stream :: lookupRequests frame [pad; button]),
       setTimeouts timers capturing)
    /\ List.length timers = 2.
Proof.
  destruct (all_located_all_scheduled browser capturing call sequence [] stream
              frame [padReply; buttonReply] eq_refl eq_refl
              ltac:(discriminate) eq_refl eq_refl eq_refl located_replies)
    as (timers & Hrun & Hlen & _).
  exists timers. exact (conj Hrun Hlen).
Defined.

Lemma malformed_location_cuts_sequence_run :
  handleMoveCursorInSequence buttonNull (Some call) capturing
  = ((Rejected TypeError, DrawImage stream :: lookupRequests frame [pad; button]),
     setTimeouts [mkTimer 0%Q (mkCursor (JNum 200%Q) (JNum 100%Q))] capturing).
Proof.
  exact (malformed_location_cuts_sequence buttonNull capturing call sequence []
           stream frame [padReply] JNull [] eq_refl eq_refl ltac:(discriminate)
           eq_refl eq_refl eq_refl eq_refl (or_introl eq_refl)).
Defined.

Lemma pending_lookup_holds_back_sequence_run :
  handleMoveCursorInSequence buttonPending (Some call) capturing
  = ((Pending, DrawImage stream :: lookupRequests frame [pad; button]), capturing).
Proof.
  exact (pending_lookup_holds_back_sequence buttonPending capturing call sequence
           [] stream frame 1 button eq_refl eq_refl eq_refl eq_refl eq_refl
           eq_refl eq_refl).
Defined.

Lemma handler_keeps_pending_timers_run :
  In (mkCursor (JNum 500%Q) (JNum 400%Q))
    (fst (runTimers (snd (handleMoveCursorInSequence browser (Some call)
                            choreographed)))).
Proof.
  exact (proj2 (handler_keeps_pending_timers browser choreographed (Some call))
           (mkTimer 3000%Q (mkCursor (JNum 500%Q) (JNum 400%Q)))
           (or_intror (or_introl eq_refl))).
Defined.

Lemma sequence_delays_in_range :
  forall c first rest,
    Some call = Some c -> functionCalls c = first :: rest ->
    nonNegative (points first) /\ (sumDelays (points first) <= 2000000)%Q.
Proof.
  intros c first rest Hc Hcalls.
  injection Hc as <-. injection Hcalls as <- _.
  split; [exact Runs.nonNegative_demo|].
  unfold Qle. simpl. lia.
Defined.

Lemma events_fire_in_point_order_run :
  fst (runTimers (snd (handleMoveCursorInSequence browser (Some call) capturing)))
  = [mkCursor (JNum 200%Q) (JNum 100%Q); mkCursor (JNum 500%Q) (JNum 400%Q)].
Proof.
  exact (events_fire_in_point_order browser capturing (Some call) eq_refl
           sequence_delays_in_range).
Defined.

Lemma start_connect_failure_run :
  fst (start config browser offline) = (Rejected ConnectionError, [])
  /\ isConnected (snd (start config browser offline)) = false.
Proof.
  destruct (start_connect_failure (H := client_ops) config browser offline ConnectionError eq_refl)
    as (Hrejected & Hoff & _).
  exact (conj Hrejected Hoff).
Defined.

Lemma start_picker_dismissed_run :
  fst (start config pickerDismissed initial) = (Fulfilled None, [GetDisplayMedia])
  /\ isConnected (snd (start config pickerDismissed initial)) = true.
Proof.
  destruct (start_picker_dismissed (H := client_ops) config pickerDismissed initial tt ModelError
              eq_refl eq_refl)
    as (Hnull & Hon & _).
  exact (conj Hnull Hon).
Defined.


Lemma listeners_frame_run :
  let s' := fst (listener browser (OnToolcall (Some call)) capturing) in
  isConnected s' = true /\ wsClient s' = wsClient capturing.
Proof.
  destruct (listeners_frame browser (OnToolcall (Some call)) capturing
              ltac:(discriminate))
    as (Hclient & _ & _ & _ & _ & Hconnected & _).
  exact (conj Hconnected Hclient).
Defined.

Lemma texts_present :
  Forall (fun parts => AppComponent.firstText parts <> "")
    [["Here"]; [" it is"; "ignored"]].
Proof.
  repeat constructor; discriminate.
Defined.

Lemma streamed_turn_is_one_message_run :
  AppComponent.messages
    (received (modelTurns [["Here"]; [" it is"; "ignored"]]) component)
  = [AppComponent.mkMessage "user" "Hello";
     AppComponent.mkMessage "model" "Here it is"].
Proof.
  exact (proj2 (streamed_turn_is_one_message component
                  [["Here"]; [" it is"; "ignored"]] eq_refl
                  ltac:(discriminate) texts_present)).
Defined.

Lemma completed_turn_is_shown_twice_run :
  AppComponent.messages
    (received (modelTurns [["Here"]; [" it is"; "ignored"]] ++ [Some TurnComplete])
       component)
  = [AppComponent.mkMessage "user" "Hello";
     AppComponent.mkMessage "model" "Here it is";
     AppComponent.mkMessage "model" "Here it is"].
Proof.
  exact (proj2 (proj1 (completed_turn_is_shown_twice component
                         [["Here"]; [" it is"; "ignored"]] eq_refl
                         ltac:(discriminate) texts_present))).
Defined.

Lemma textless_turn_drops_a_message_run :
  AppComponent.messages (received (modelTurns [[]; [" it is"]]) streaming)
  = [AppComponent.mkMessage "model" "Here it is"].
Proof.
  exact (proj2 (textless_turn_drops_a_message streaming [] [" it is"]
                  ltac:(discriminate) eq_refl ltac:(discriminate))).
Defined.

Lemma component_send_shows_unsent_message_run :
  AppComponent.send (fun value => value) component initial
  = (AppComponent.mkApp false ""
       [AppComponent.mkMessage "user" "Hello";
        AppComponent.mkMessage "user" "Where is the pad?"] None false,
     initial).
Proof.
  exact (proj1 (component_send_shows_unsent_message (fun value => value)
                  component initial)
           "Where is the pad?" eq_refl ltac:(discriminate) eq_refl).
Defined.

Lemma cursor_stays_in_viewport_run :
  exists placed,
    AppComponent.aiCursor
      (fst (AppComponent.moveCursorToPosition 200%Q 100%Q page component))
    = Some placed
    /\ (AppComponent.styleLeft placed <= 1280)%Q.
Proof.
  destruct (proj1 (cursor_stays_in_viewport 200%Q 100%Q page component)
              (AppComponent.mkAiCursor 0%Q 0%Q) eq_refl
              ltac:(discriminate) ltac:(discriminate) ltac:(discriminate)
              ltac:(discriminate) ltac:(discriminate) ltac:(discriminate))
    as (placed & Hplaced & _ & Hleft & _).
  exists placed. exact (conj Hplaced Hleft).
Defined.

Lemma video_frame_is_one_jpeg_chunk_run :
  snd (ControlTray.sendVideoFrame (fun _ _ => frame) tray capturing)
  = snd (sendRealtimeInput [mkBlob "image/jpeg" "AAAA"] capturing).
Proof.
  exact (f_equal snd
           (proj1 (video_frame_is_one_jpeg_chunk (fun _ _ => frame) tray capturing
                     (ControlTray.mkCanvas true 300 150)
                     (ControlTray.mkVideo 1280 720)
                     "data:image/jpeg;base64" "AAAA"
                     eq_refl eq_refl eq_refl eq_refl
                     ltac:(vm_compute; lia) eq_refl eq_refl))).
Defined.

Lemma video_frames_need_streaming_run :
  isStreamingSubject capturing = true /\ ControlTray.isConnected tray = true.
Proof.
  exact (proj2 (video_frames_need_streaming (fun _ _ => frame) tray capturing)
           ltac:(discriminate)).
Defined.

Lemma capture_tracks_distinct : NoDup (ScreenCapture.tracks capture).
Proof.
  repeat constructor; simpl; intuition discriminate.
Defined.

Lemma capture_tracks_fresh :
  forall t, In t (ScreenCapture.tracks capture) ->
            ~ In t (ScreenCapture.wrapped ScreenCapture.created).
Proof.
  intros t _ Hin. exact Hin.
Defined.

Lemma capture_stop_is_idempotent_run :
  ScreenCapture.isStreamingSubject
    (ScreenCapture.stop
       (snd (ScreenCapture.start (Fulfilled (Some capture)) ScreenCapture.created)))
  = false.
Proof.
  exact (proj1 (proj2 (capture_stop_is_idempotent
                         (snd (ScreenCapture.start (Fulfilled (Some capture))
                                 ScreenCapture.created))))
           ltac:(discriminate)).
Defined.

Lemma capture_start_stop_round_trip_run :
  ScreenCapture.streamLog
    (ScreenCapture.stop
       (snd (ScreenCapture.start (Fulfilled (Some capture)) ScreenCapture.created)))
  = [Some capture; None; None; None].
Proof.
  destruct (capture_start_stop_round_trip ScreenCapture.created capture eq_refl
              capture_tracks_distinct capture_tracks_fresh)
    as (_ & _ & _ & _ & _ & _ & Hlog & _).
  exact Hlog.
Defined.

Lemma ended_track_leaves_others_running_run :
  ScreenCapture.stopped
    (ScreenCapture.trackEnded 1
       (snd (ScreenCapture.start (Fulfilled (Some capture)) ScreenCapture.created)))
  = [].
Proof.
  destruct (ended_track_leaves_others_running ScreenCapture.created capture 1
              eq_refl capture_tracks_distinct capture_tracks_fresh
              (or_introl eq_refl))
    as (_ & _ & Hstopped & _).
  exact Hstopped.
Defined.

End MoreRuns.
